(** * Four in a Row: the game engine and its adversarial search

    A shallow embedding of [4inaROW.py]: the class [MINIMAX_ALGORITHM]
    (win test, legal moves, move application, static evaluation, minimax,
    move selection), the rule part of the controllers [GAME_AI] and
    [GAME_1V1] (win detection with coordinates, draw test, drop position,
    the computer's turn) and the start-up check [validate].

    Python lists of lists are [list (list cell)]; a read [state[r][c]] is
    [cell_at].  Integers that may also be [float('-inf')] or [float('inf')]
    are [ext].  Calls that index with a value coming from the caller return
    a [result], whose [Raise] carries the Python exception. *)

From Stdlib Require Import ZArith Lia.
From stdpp Require Import base numbers list strings option.

Open Scope Z_scope.
Open Scope nat_scope.

(** ** Cells and boards *)

(** The three characters a cell holds: ['.'], ['X'] and ['O']. *)
Inductive cell : Type := Empty | X | O.

#[global] Instance cell_eq_dec : EqDecision cell.
Proof. solve_decision. Defined.

Abbreviation board := (list (list cell)).

(** [state[r][c]].  Every read the program makes is inside the grid when
    the grid is rectangular (see [rect]); outside it the embedding answers
    [Empty], a value the theorems never rely on. *)
Definition cell_at (state : board) (r c : nat) : cell :=
  match state !! r with
  | Some row => match row !! c with Some x => x | None => Empty end
  | None => Empty
  end.

(** [len(state[0])]. *)
Definition columns (state : board) : nat :=
  match state with
  | [] => 0
  | row :: _ => length row
  end.

(** [range(a, b)]; [range(n)] is [range 0 n].  Python's range is empty when
    [b <= a], which truncated subtraction reproduces. *)
Definition range (a b : nat) : list nat := seq a (b - a).

(** A rectangular grid of [R] rows and [C] columns, [R >= 1]: the shape
    built by [GAME_AI.__init__], [GAME_1V1.__init__] and [reset_state]. *)
Definition rect (R C : nat) (state : board) : Prop :=
  1 <= R /\ length state = R /\ Forall (fun row => length row = C) state.

Definition rectb (R C : nat) (state : board) : bool :=
  (1 <=? R) && (length state =? R) && forallb (fun row => length row =? C) state.

(** The grid of [__init__] and [reset_state]:
    [[['.' for _ in range(columns)] for _ in range(rows)]]. *)
Definition empty_board (rows_number columns_number : nat) : board :=
  replicate rows_number (replicate columns_number Empty).

(** ** Exceptions and extended integers *)

Inductive exn : Type := IndexError | TypeError.

Inductive result (A : Type) : Type :=
  | Ok (a : A)
  | Raise (e : exn).
Arguments Ok {A} a.
Arguments Raise {A} e.

#[global] Instance result_ret : MRet result := fun A a => Ok a.
#[global] Instance result_bind : MBind result :=
  fun A B f m => match m with Ok a => f a | Raise e => Raise e end.
#[global] Instance result_fmap : FMap result :=
  fun A B f m => match m with Ok a => Ok (f a) | Raise e => Raise e end.

(** An [int], [float('-inf')] or [float('inf')]. *)
Inductive ext : Type := NegInf | Fin (z : Z) | PosInf.

(** [a < b] on such values. *)
Definition ext_ltb (a b : ext) : bool :=
  match a, b with
  | NegInf, NegInf => false
  | NegInf, _ => true
  | Fin _, NegInf => false
  | Fin x, Fin y => (x <? y)%Z
  | Fin _, PosInf => true
  | PosInf, _ => false
  end.

Definition ext_le (a b : ext) : Prop := ext_ltb b a = false.

(** Python's [max(a, b)] returns [a] unless [b > a]; [min(a, b)] returns
    [a] unless [b < a]. *)
Definition ext_max (a b : ext) : ext := if ext_ltb a b then b else a.
Definition ext_min (a b : ext) : ext := if ext_ltb b a then b else a.

(** ** MINIMAX_ALGORITHM *)

(** [row[col:col + 4]]. *)
Definition slice4 (row : list cell) (col : nat) : list cell :=
  take 4 (drop col row).

(** [[f(i) for i in range(4)]]. *)
Definition line4 (f : nat -> cell) : list cell := f <$> range 0 4.

(** [all(cell == player for cell in window)]. *)
Definition all_eq (player : cell) (window : list cell) : bool :=
  forallb (fun x => bool_decide (x = player)) window.

Definition is_winner (state : board) (player : cell) : bool :=
  (* rows *)
  existsb (fun row =>
    existsb (fun col => all_eq player (slice4 row col))
            (range 0 (length row - 3))) state
  (* columns *)
  || existsb (fun col =>
       existsb (fun row =>
         all_eq player (line4 (fun i => cell_at state (row + i) col)))
               (range 0 (length state - 3))) (range 0 (columns state))
  (* first diagonals *)
  || existsb (fun row =>
       existsb (fun col =>
         all_eq player (line4 (fun i => cell_at state (row + i) (col + i))))
               (range 0 (columns state - 3))) (range 0 (length state - 3))
  (* second diagonals *)
  || existsb (fun row =>
       existsb (fun col =>
         all_eq player (line4 (fun i => cell_at state (row + i) (col - i))))
               (range 3 (columns state))) (range 0 (length state - 3)).

(** [all(cell != '.' for row in state for cell in row)]. *)
Definition board_full (state : board) : bool :=
  forallb (fun row => forallb (fun x => negb (bool_decide (x = Empty))) row) state.

Definition is_terminal (state : board) : bool :=
  if is_winner state O || is_winner state X then true
  else board_full state.

Definition get_possible_moves (state : board) : list nat :=
  List.filter (fun col => bool_decide (cell_at state 0 col = Empty))
              (range 0 (columns state)).

(** The loop of [make_move] with rows [n - 1, ..., 0] still to visit.
    [new_state[r][col]] raises [IndexError] when [col] is not an index of
    row [r]. *)
Fixpoint drop_piece (new_state : board) (col : nat) (player : cell)
    (n : nat) : result board :=
  match n with
  | 0 => Ok new_state
  | S r =>
      match new_state !! r with
      | None => Raise IndexError
      | Some row =>
          match row !! col with
          | None => Raise IndexError
          | Some Empty => Ok (<[r := <[col := player]> row]> new_state)
          | Some _ => drop_piece new_state col player r
          end
      end
  end.

Definition make_move (state : board) (move : nat) (player : cell)
    : result board :=
  let col := move in
  let new_state := state in (* a copy: values are immutable here *)
  drop_piece new_state col player (length new_state).

(** [window.count(c)]. *)
Definition count (window : list cell) (c : cell) : nat :=
  length (List.filter (fun x => bool_decide (x = c)) window).

Definition evaluate_window (window : list cell) : Z :=
  if count window O =? 4 then 100%Z
  else if count window X =? 4 then (-100)%Z
  else if (count window O =? 3) && (count window Empty =? 1) then 5%Z
  else if (count window O =? 2) && (count window Empty =? 2) then 2%Z
  else if (count window X =? 3) && (count window Empty =? 1) then (-5)%Z
  else if (count window X =? 2) && (count window Empty =? 2) then (-2)%Z
  else 0%Z.

(** A [for] loop that updates one accumulator. *)
Definition for_acc {A S : Type} (l : list A) (body : A -> S -> S) (s : S) : S :=
  fold_left (fun acc a => body a acc) l s.

Definition evaluate (state : board) : Z :=
  let score := 0%Z in
  (* rows *)
  let score :=
    for_acc state (fun row score =>
      for_acc (range 0 (length row - 3)) (fun col score =>
        let window := slice4 row col in
        (score + evaluate_window window)%Z) score) score in
  (* columns *)
  let score :=
    for_acc (range 0 (columns state)) (fun col score =>
      for_acc (range 0 (length state - 3)) (fun row score =>
        let window := line4 (fun i => cell_at state (row + i) col) in
        (score + evaluate_window window)%Z) score) score in
  (* first diagonals *)
  let score :=
    for_acc (range 0 (length state - 3)) (fun row score =>
      for_acc (range 0 (columns state - 3)) (fun col score =>
        let window := line4 (fun i => cell_at state (row + i) (col + i)) in
        (score + evaluate_window window)%Z) score) score in
  (* second diagonals *)
  let score :=
    for_acc (range 0 (length state - 3)) (fun row score =>
      for_acc (range 3 (columns state)) (fun col score =>
        let window := line4 (fun i => cell_at state (row + i) (col - i)) in
        (score + evaluate_window window)%Z) score) score in
  score.

(** The search.  [depth] is a natural number: the program only builds
    searchers of depth 0, 2 and 3. *)
Fixpoint minimax (state : board) (depth : nat) (maximizing_player : bool)
    : result ext :=
  match depth with
  | 0 => Ok (Fin (evaluate state))
  | S depth' =>
      if is_terminal state then Ok (Fin (evaluate state))
      else if maximizing_player then
        for_acc (get_possible_moves state) (fun move acc =>
          max_eval ← acc;
          child_state ← make_move state move O;
          eval ← minimax child_state depth' false;
          Ok (ext_max max_eval eval)) (Ok NegInf)
      else
        for_acc (get_possible_moves state) (fun move acc =>
          min_eval ← acc;
          child_state ← make_move state move X;
          eval ← minimax child_state depth' true;
          Ok (ext_min min_eval eval)) (Ok PosInf)
  end.

(** The value [find_best_move] gives to one move. *)
Definition move_score (depth : nat) (state : board) (move : nat) : result ext :=
  child_state ← make_move state move O;
  minimax child_state depth false.

(** [find_best_move], for the searcher built with [depth].  The pair is
    [(best_score, best_move)]; [None] is Python's [None]. *)
Definition find_best_move (depth : nat) (state : board) : result (option nat) :=
  snd <$>
  for_acc (get_possible_moves state) (fun move acc =>
    '(best_score, best_move) ← acc;
    score ← move_score depth state move;
    if ext_ltb best_score score then Ok (score, Some move)
    else Ok (best_score, best_move)) (Ok (NegInf, None)).

(** ** The controllers GAME_AI and GAME_1V1 *)

(** A loop that returns from the function at the first hit. *)
Fixpoint first_some {A B : Type} (l : list A) (f : A -> option B) : option B :=
  match l with
  | [] => None
  | a :: l' =>
      match f a with
      | Some b => Some b
      | None => first_some l' f
      end
  end.

(** [a == b == c == d and a != '.'] *)
Definition four_equal (a b c d : cell) : bool :=
  bool_decide (a = b) && bool_decide (b = c) && bool_decide (c = d)
  && negb (bool_decide (a = Empty)).

(** [is_a_winner], the same text in [GAME_AI] and in [GAME_1V1].  The
    Python list [[mark, p1, p2, p3, p4]] is the pair of the mark and the
    list of positions. *)
Definition is_a_winner (state : board) : option (cell * list (nat * nat)) :=
  let rows := length state in
  let cols := columns state in
  let matrix := cell_at state in
  (* rows *)
  match first_some (range 0 rows) (fun row =>
          first_some (range 0 (cols - 3)) (fun col =>
            if four_equal (matrix row col) (matrix row (col + 1))
                          (matrix row (col + 2)) (matrix row (col + 3))
            then Some (matrix row col,
                       [(row, col); (row, col + 1); (row, col + 2); (row, col + 3)])
            else None)) with
  | Some w => Some w
  | None =>
  (* columns *)
  match first_some (range 0 (rows - 3)) (fun row =>
          first_some (range 0 cols) (fun col =>
            if four_equal (matrix row col) (matrix (row + 1) col)
                          (matrix (row + 2) col) (matrix (row + 3) col)
            then Some (matrix row col,
                       [(row, col); (row + 1, col); (row + 2, col); (row + 3, col)])
            else None)) with
  | Some w => Some w
  | None =>
  (* first diagonals *)
  match first_some (range 0 (rows - 3)) (fun row =>
          first_some (range 0 (cols - 3)) (fun col =>
            if four_equal (matrix row col) (matrix (row + 1) (col + 1))
                          (matrix (row + 2) (col + 2)) (matrix (row + 3) (col + 3))
            then Some (matrix row col,
                       [(row, col); (row + 1, col + 1); (row + 2, col + 2);
                        (row + 3, col + 3)])
            else None)) with
  | Some w => Some w
  | None =>
  (* second diagonals *)
  first_some (range 3 rows) (fun row =>
    first_some (range 0 (cols - 3)) (fun col =>
      if four_equal (matrix row col) (matrix (row - 1) (col + 1))
                    (matrix (row - 2) (col + 2)) (matrix (row - 3) (col + 3))
      then Some (matrix row col,
                 [(row, col); (row - 1, col + 1); (row - 2, col + 2);
                  (row - 3, col + 3)])
      else None))
  end end end.

(** The fields of a [GAME_AI] object that the rules read or write.  The
    window, the fonts and the moving piece are left to the display.
    [start_move] does not exist until [play] first assigns it. *)
Record GAME_AI : Type := mkGAME_AI {
  last_move : string;
  start_move : option string;
  rows_number : nat;
  columns_number : nat;
  first_player : string;
  current_player : string;
  game_mode : string;
  state : board;
  minimax_hard : nat;
  minimax_medium : nat;
  minimax_easy : nat
}.

(** [GAME_AI.__init__]; each searcher is given by its depth. *)
Definition GAME_AI_init (row_size column_size : nat)
    (first_player game_mode : string) : GAME_AI :=
  {| last_move := "Random";
     start_move := None;
     rows_number := row_size;
     columns_number := column_size;
     first_player := first_player;
     current_player := first_player;
     game_mode := game_mode;
     state := empty_board row_size column_size;
     minimax_hard := 3;
     minimax_medium := 2;
     minimax_easy := 0 |}.

Definition set_state (g : GAME_AI) (s : board) : GAME_AI :=
  mkGAME_AI (last_move g) (start_move g) (rows_number g) (columns_number g)
            (first_player g) (current_player g) (game_mode g) s
            (minimax_hard g) (minimax_medium g) (minimax_easy g).

Definition set_current_player (g : GAME_AI) (p : string) : GAME_AI :=
  mkGAME_AI (last_move g) (start_move g) (rows_number g) (columns_number g)
            (first_player g) p (game_mode g) (state g)
            (minimax_hard g) (minimax_medium g) (minimax_easy g).

Definition set_start_move (g : GAME_AI) (v : string) : GAME_AI :=
  mkGAME_AI (last_move g) (Some v) (rows_number g) (columns_number g)
            (first_player g) (current_player g) (game_mode g) (state g)
            (minimax_hard g) (minimax_medium g) (minimax_easy g).

(** [state[line][column] = mark]; [(line, column)] is a cell of the grid
    at every call. *)
Definition set_cell (s : board) (line column : nat) (mark : cell) : board :=
  match s !! line with
  | Some row => <[line := <[column := mark]> row]> s
  | None => s
  end.

Definition get_available_position (g : GAME_AI) (column : nat) : nat :=
  let line := 0 in
  for_acc (range 0 (rows_number g)) (fun i line =>
    if bool_decide (cell_at (state g) i column = Empty) then i else line) line.

(** [ai_move] is what [find_best_move] returned: indexing a row with
    [None] raises [TypeError]. *)
Definition execute_ai_move (g : GAME_AI) (ai_move : option nat) : result GAME_AI :=
  match ai_move with
  | None => Raise TypeError
  | Some col =>
      let line := get_available_position g col in
      Ok (set_state g (set_cell (state g) line col O))
  end.

(** The human's click on [column]. *)
Definition is_valid_move (g : GAME_AI) (column : nat) : bool :=
  existsb (fun i => bool_decide (cell_at (state g) i column = Empty))
          (range 0 (rows_number g)).

Definition execute_move (g : GAME_AI) (column : nat) : GAME_AI :=
  let line := get_available_position g column in
  set_state g (set_cell (state g) line column X).

Definition is_draw (g : GAME_AI) : bool :=
  forallb (fun i =>
    forallb (fun j => negb (bool_decide (cell_at (state g) i j = Empty)))
            (range 0 (columns_number g))) (range 0 (rows_number g)).

(** The human branch of [play] on a left click at [column]. *)
Definition human_turn (g : GAME_AI) (column : nat) : GAME_AI :=
  if is_valid_move g column
  then set_current_player (execute_move g column) "computer"
  else g.

(** [ai_move = random.randint(0, columns_number - 1)] repeated
    [while state[0][ai_move] != '.'].  [draws] are the numbers the
    generator hands out, in order; the answer is the accepted number and
    the numbers not yet used, or [None] when [draws] ends while the loop
    is still asking. *)
Fixpoint random_move (s : board) (draws : list nat) : option (nat * list nat) :=
  match draws with
  | [] => None
  | ai_move :: rest =>
      if bool_decide (cell_at s 0 ai_move = Empty) then Some (ai_move, rest)
      else random_move s rest
  end.

(** The computer branch of [play]: the new object (or the exception) and
    the unused draws; [None] when the draws ran out. *)
Definition computer_turn (draws : list nat) (g : GAME_AI)
    : option (result GAME_AI * list nat) :=
  if decide (game_mode g = "Easy") then
    if decide (last_move g = "Random") then
      Some (ai_move ← find_best_move (minimax_easy g) (state g);
            g ← execute_ai_move g ai_move;
            Ok (set_start_move (set_current_player g "human") "Smart"),
            draws)
    else
      match random_move (state g) draws with
      | None => None
      | Some (ai_move, rest) =>
          Some (g ← execute_ai_move g (Some ai_move);
                Ok (set_start_move (set_current_player g "human") "Random"),
                rest)
      end
  else if decide (game_mode g = "Medium") then
    Some (ai_move ← find_best_move (minimax_medium g) (state g);
          g ← execute_ai_move g ai_move;
          Ok (set_current_player g "human"),
          draws)
  else if decide (game_mode g = "Hard") then
    Some (ai_move ← find_best_move (minimax_hard g) (state g);
          g ← execute_ai_move g ai_move;
          Ok (set_current_player g "human"),
          draws)
  else Some (Ok g, draws).

(** ** Start-up: validate *)

(** What [validate] ends with: a message printed, or the call
    [FourInROW_game(opponent_type, int(row_size), int(column_size),
    first_player)], which opens the menu and builds the match. *)
Inductive startup : Type :=
  | Printed (message : string)
  | FourInROW_game (opponent_type : string) (row_size column_size : Z)
                   (first_player : string).

Section Validate.

(** Python's built-in [int] on a string: the integer, or the message of
    the [ValueError] it raises. *)
Variable int : string -> Z + string.

(** The body of the [try]: [inl] is the message of the exception raised
    in it, [inr] the two integers [int] gave when none was. *)
Definition validate_checks (opponent_type row_size column_size
    first_player : string) : string + Z * Z :=
  if negb (bool_decide (opponent_type = "human"))
     && negb (bool_decide (opponent_type = "computer"))
  then inl "ERROR: Opponent type must be 'human' or 'computer'!"
  else
  match int row_size with
  | inr value_error => inl value_error
  | inl rows =>
  if (rows <? 4)%Z || (rows >? 8)%Z
  then inl "ERROR: The number of rows must be between 4 and 8!"
  else
  match int column_size with
  | inr value_error => inl value_error
  | inl cols =>
  if (cols <? 4)%Z || (cols >? 16)%Z
  then inl "ERROR: The number of columns must be between 4 and 16!"
  else
  if bool_decide (opponent_type = "human") then
    if negb (bool_decide (first_player = "player1"))
       && negb (bool_decide (first_player = "player2"))
    then inl "ERROR: In 1v1 games, the first move should be made by 'player1' or 'player2'!"
    else inr (rows, cols)
  else if bool_decide (opponent_type = "computer") then
    if negb (bool_decide (first_player = "computer"))
       && negb (bool_decide (first_player = "human"))
    then inl "ERROR: In the games against computer, the first move should be made by 'Computer' or 'Human'!"
    else inr (rows, cols)
  else inr (rows, cols)
  end end.

(** [except] prints the message; [else] starts the game, calling [int]
    again on the same two strings. *)
Definition validate (opponent_type row_size column_size
    first_player : string) : startup :=
  match validate_checks opponent_type row_size column_size first_player with
  | inl message => Printed message
  | inr (rows, cols) => FourInROW_game opponent_type rows cols first_player
  end.

End Validate.

(** ** MOVABLE_PIECE *)

(** Pixel arithmetic is on [Z]; Python's [//] on integers is [Z.div]
    (both round towards minus infinity), except that Python raises
    [ZeroDivisionError] for a zero divisor: the cell size is 100 at every
    call. *)
Module Piece.

Record t : Type := mk {
  computer_game : bool;
  current_player : Z;
  color : Z * Z * Z;
  center_x : Z;
  center_y : Z;
  radius : Z
}.

(** [MOVABLE_PIECE.__init__].  For a [first_player] that is none of the
    four names the object is left without [current_player] and [color]:
    [None]. *)
Definition init (cell_size columns_number : Z) (first_player : string)
    : option t :=
  let center_x :=
    if negb (columns_number mod 2 =? 0)%Z
    then ((columns_number * cell_size) / 2)%Z
    else ((columns_number * cell_size) / 2 - cell_size / 2)%Z in
  let center_y := (cell_size / 2)%Z in
  if bool_decide (first_player = "player1")
  then Some (mk false 1 (255, 0, 0)%Z center_x center_y 60)
  else if bool_decide (first_player = "player2")
  then Some (mk false 2 (230, 230, 0)%Z center_x center_y 60)
  else if bool_decide (first_player = "human")
  then Some (mk true 1 (255, 0, 0)%Z center_x center_y 60)
  else if bool_decide (first_player = "computer")
  then Some (mk true 2 (230, 230, 0)%Z center_x center_y 60)
  else None.

Definition compute_position (p : t) (mouse_x cell_size : Z) : t :=
  let location_on_column := (mouse_x / cell_size)%Z in
  mk (computer_game p) (current_player p) (color p)
     (location_on_column * cell_size + cell_size / 2)%Z
     (center_y p) (radius p).

Definition change_player (p : t) : t :=
  if (current_player p =? 2)%Z
  then mk (computer_game p) 1 (255, 0, 0)%Z (center_x p) (center_y p) (radius p)
  else mk (computer_game p) 2 (230, 230, 0)%Z (center_x p) (center_y p) (radius p).

Definition update_color (p : t) (player : string) : t :=
  if bool_decide (player = "player1")
  then mk (computer_game p) 1 (255, 0, 0)%Z (center_x p) (center_y p) (radius p)
  else if bool_decide (player = "player2")
  then mk (computer_game p) 2 (230, 230, 0)%Z (center_x p) (center_y p) (radius p)
  else if bool_decide (player = "computer")
  then mk (computer_game p) 2 (230, 230, 0)%Z (center_x p) (center_y p) (radius p)
  else if bool_decide (player = "human")
  then mk (computer_game p) 1 (255, 0, 0)%Z (center_x p) (center_y p) (radius p)
  else p.

End Piece.

(** [self.cell_size = 100] in both games. *)
Definition cell_size : Z := 100.

(** [center_x] of the disc that [generate_pieces] and
    [color_winning_pieces] draw for column [j]. *)
Definition disc_center_x (j : Z) : Z := ((j + 1) * cell_size - cell_size / 2)%Z.

(** [column = self.movable_piece.center_x // self.cell_size], used as a
    list index; [center_x] is never negative (see [piece_in_window]). *)
Definition piece_column (p : Piece.t) : nat :=
  Z.to_nat (Piece.center_x p / cell_size).

(** ** The buttons of the menu and of the two winner pages *)

(** [pygame.Rect(left, top, width, height)]. *)
Record Rect : Type := mkRect {
  rect_left : Z;
  rect_top : Z;
  rect_width : Z;
  rect_height : Z
}.

(** [compute_button_rect], the same text in [MENU_PAGE], [WINNER_PAGE_AI]
    and [WINNER_PAGE_1v1], with the sizes the three classes share: a
    window of 800 by 800, buttons of 350 by 100, 30 apart. *)
Definition compute_button_rect (button_texts : list string)
    : list (Rect * string) :=
  let width := 800%Z in
  let height := 800%Z in
  let button_width := 350%Z in
  let button_height := 100%Z in
  let button_spacing := 30%Z in
  imap (fun i text =>
    (mkRect ((width - button_width) / 2)
            ((height - (button_height + button_spacing)
                       * Z.of_nat (length button_texts)) / 2
             + Z.of_nat i * (button_height + button_spacing))
            button_width button_height, text)%Z) button_texts.

(** ** One round of GAME_AI.play *)

(** The events [play] looks at. *)
Inductive event : Type :=
  | QUIT
  | MOUSEMOTION (mouse_x : Z)
  | MOUSEBUTTONDOWN (button : Z)
  | OTHER.

(** How a piece of [play] ends: it goes on, the program exits
    ([sys.exit]), an exception escapes, or the generator's numbers ran
    out. *)
Inductive run (A : Type) : Type :=
  | Continue (a : A)
  | Exit
  | Crash (e : exn)
  | Starved.
Arguments Continue {A} a.
Arguments Exit {A}.
Arguments Crash {A} e.
Arguments Starved {A}.

(** A [GAME_AI] object with the fields [GAME_AI] above leaves out.
    [winning_pieces] is [None] or the list [[mark, p1, ...]], kept as the
    mark and the positions. *)
Record AI_session : Type := mkAI_session {
  game : GAME_AI;
  movable_piece : Piece.t;
  winning_pieces : option (cell * list (nat * nat))
}.

(** [GAME_AI.__init__] in full. *)
Definition AI_session_init (row_size column_size : nat)
    (first_player game_mode : string) : option AI_session :=
  match Piece.init cell_size (Z.of_nat column_size) first_player with
  | Some piece =>
      Some (mkAI_session
              (GAME_AI_init row_size column_size first_player game_mode)
              piece None)
  | None => None
  end.

Definition set_game_mode (g : GAME_AI) (mode : string) : GAME_AI :=
  mkGAME_AI (last_move g) (start_move g) (rows_number g) (columns_number g)
            (first_player g) (current_player g) mode (state g)
            (minimax_hard g) (minimax_medium g) (minimax_easy g).

(** [reset_state] on the grid; it also sets [winning_pieces] to [None]. *)
Definition reset_state (g : GAME_AI) : GAME_AI :=
  set_state g (empty_board (rows_number g) (columns_number g)).

(** One event of the human branch.  A left click on a column with room
    drops ['X'], hands the moving piece over and gives the turn to the
    computer; the loop over the events goes on. *)
Definition handle_event (s : AI_session) (e : event) : run AI_session :=
  match e with
  | QUIT => Exit
  | MOUSEMOTION mouse_x =>
      Continue (mkAI_session (game s)
                  (Piece.compute_position (movable_piece s) mouse_x cell_size)
                  (winning_pieces s))
  | MOUSEBUTTONDOWN button =>
      if (button =? 1)%Z then
        if is_valid_move (game s) (piece_column (movable_piece s)) then
          Continue (mkAI_session
                      (set_current_player
                         (execute_move (game s) (piece_column (movable_piece s)))
                         "computer")
                      (Piece.change_player (movable_piece s))
                      (winning_pieces s))
        else Continue s
      else Continue s
  | OTHER => Continue s
  end.

(** [for event in pygame.event.get()]. *)
Fixpoint handle_events (s : AI_session) (events : list event) : run AI_session :=
  match events with
  | [] => Continue s
  | e :: rest =>
      match handle_event s e with
      | Continue s' => handle_events s' rest
      | stop => stop
      end
  end.

(** The computer branch: [computer_turn] and, in the three modes,
    [movable_piece.change_player()]. *)
Definition computer_branch (draws : list nat) (s : AI_session)
    : run (AI_session * list nat) :=
  match computer_turn draws (game s) with
  | None => Starved
  | Some (Raise e, _) => Crash e
  | Some (Ok g, rest) =>
      let piece :=
        if bool_decide (game_mode (game s) = "Easy")
           || bool_decide (game_mode (game s) = "Medium")
           || bool_decide (game_mode (game s) = "Hard")
        then Piece.change_player (movable_piece s)
        else movable_piece s in
      Continue (mkAI_session g piece (winning_pieces s), rest)
  end.

(** [[(i, j) for i in range(rows) for j in range(cols)]]. *)
Definition all_positions (rows cols : nat) : list (nat * nat) :=
  flat_map (fun i => map (fun j => (i, j)) (range 0 cols)) (range 0 rows).

(** The end of a round: [winning_pieces] after the two tests. *)
Definition check_outcome (g : GAME_AI)
    (winning_pieces : option (cell * list (nat * nat))) : option (cell * list (nat * nat)) :=
  let response_winner := is_a_winner (state g) in
  let response_draw := is_draw g in
  let winning_pieces :=
    if response_draw
    then Some (Empty, all_positions (rows_number g) (columns_number g))
    else winning_pieces in
  match response_winner with
  | Some w => Some w
  | None => winning_pieces
  end.

(** What [play] does with the answer of the winner page. *)
Definition restart (s : AI_session) (result : string) : AI_session :=
  if bool_decide (result = "Easy") || bool_decide (result = "Medium")
     || bool_decide (result = "Hard")
  then mkAI_session
         (set_game_mode
            (reset_state (set_current_player (game s) (first_player (game s))))
            result)
         (Piece.update_color (movable_piece s) (first_player (game s)))
         None
  else s.

(** One round of the [while True] of [GAME_AI.play].  [events] is what
    [pygame.event.get()] returns if asked, [draws] the generator's
    numbers, [choice] the button pressed on the winner page if it is
    shown ("Exit" also stands for closing the window). *)
Definition play_round (events : list event) (draws : list nat)
    (choice : string) (s : AI_session) : run (AI_session * list nat) :=
  let turn :=
    if bool_decide (current_player (game s) = "human") then
      match handle_events s events with
      | Continue s' => Continue (s', draws)
      | Exit => Exit
      | Crash e => Crash e
      | Starved => Starved
      end
    else if bool_decide (current_player (game s) = "computer") then
      computer_branch draws s
    else Continue (s, draws) in
  match turn with
  | Continue (s, draws) =>
      let s := mkAI_session (game s) (movable_piece s)
                 (check_outcome (game s) (winning_pieces s)) in
      match winning_pieces s with
      | None => Continue (s, draws)
      | Some _ =>
          if bool_decide (choice = "Exit") then Exit
          else Continue (restart s choice, draws)
      end
  | stop => stop
  end.

(** Rounds one after the other, each with its own events and choice. *)
Fixpoint play (rounds : list (list event * string)) (draws : list nat)
    (s : AI_session) : run (AI_session * list nat) :=
  match rounds with
  | [] => Continue (s, draws)
  | (events, choice) :: rest =>
      match play_round events draws choice s with
      | Continue (s', draws') => play rest draws' s'
      | stop => stop
      end
  end.

(** ** GAME_1V1 *)

Module OneVsOne.

Record t : Type := mk {
  rows_number : nat;
  columns_number : nat;
  first_player : string;
  state : board;
  movable_piece : Piece.t;
  winning_pieces : option (cell * list (nat * nat))
}.

(** [GAME_1V1.__init__]; [None] when the moving piece gets no player. *)
Definition init (row_size column_size : nat) (first_player : string) : option t :=
  match Piece.init cell_size (Z.of_nat column_size) first_player with
  | Some piece =>
      Some (mk row_size column_size first_player
               (empty_board row_size column_size) piece None)
  | None => None
  end.

Definition is_valid_move (g : t) : bool :=
  let column := piece_column (movable_piece g) in
  existsb (fun i => bool_decide (cell_at (state g) i column = Empty))
          (range 0 (rows_number g)).

Definition get_available_position (g : t) (column : nat) : nat :=
  let line := 0 in
  for_acc (range 0 (rows_number g)) (fun i line =>
    if bool_decide (cell_at (state g) i column = Empty) then i else line) line.

Definition execute_move (g : t) : t :=
  let column := piece_column (movable_piece g) in
  let line := get_available_position g column in
  if (Piece.current_player (movable_piece g) =? 1)%Z
  then mk (rows_number g) (columns_number g) (first_player g)
          (set_cell (state g) line column X) (movable_piece g) (winning_pieces g)
  else mk (rows_number g) (columns_number g) (first_player g)
          (set_cell (state g) line column O) (movable_piece g) (winning_pieces g).

Definition is_draw (g : t) : bool :=
  forallb (fun i =>
    forallb (fun j => negb (bool_decide (cell_at (state g) i j = Empty)))
            (range 0 (columns_number g))) (range 0 (rows_number g)).

Definition reset_state (g : t) : t :=
  mk (rows_number g) (columns_number g) (first_player g)
     (empty_board (rows_number g) (columns_number g)) (movable_piece g) None.

Definition set_piece (g : t) (p : Piece.t) : t :=
  mk (rows_number g) (columns_number g) (first_player g) (state g) p
     (winning_pieces g).

(** One event of [play]: a left click on a column with room drops the
    mark of the player the moving piece shows and hands the piece over. *)
Definition handle_event (g : t) (e : event) : run t :=
  match e with
  | QUIT => Exit
  | MOUSEMOTION mouse_x =>
      Continue (set_piece g
                  (Piece.compute_position (movable_piece g) mouse_x cell_size))
  | MOUSEBUTTONDOWN button =>
      if (button =? 1)%Z then
        if is_valid_move g then
          let g := execute_move g in
          Continue (set_piece g (Piece.change_player (movable_piece g)))
        else Continue g
      else Continue g
  | OTHER => Continue g
  end.

Fixpoint handle_events (g : t) (events : list event) : run t :=
  match events with
  | [] => Continue g
  | e :: rest =>
      match handle_event g e with
      | Continue g' => handle_events g' rest
      | stop => stop
      end
  end.

(** One round of the [while True] of [GAME_1V1.play]; [choice] is the
    button pressed on the winner page if it is shown. *)
Definition play_round (events : list event) (choice : string) (g : t) : run t :=
  match handle_events g events with
  | Continue g =>
      let response_winner := is_a_winner (state g) in
      let response_draw := is_draw g in
      let winning_pieces :=
        if response_draw
        then Some (Empty, flat_map (fun i => map (fun j => (i, j))
                                               (range 0 (columns_number g)))
                                   (range 0 (rows_number g)))
        else winning_pieces g in
      let winning_pieces :=
        match response_winner with
        | Some w => Some w
        | None => winning_pieces
        end in
      let g := mk (rows_number g) (columns_number g) (first_player g) (state g)
                  (movable_piece g) winning_pieces in
      match winning_pieces with
      | None => Continue g
      | Some _ =>
          if bool_decide (choice = "Exit") then Exit
          else if bool_decide (choice = "Play again") then
            Continue (reset_state
                        (set_piece g (Piece.update_color (movable_piece g)
                                                         (first_player g))))
          else Continue g
      end
  | stop => stop
  end.

Fixpoint play (rounds : list (list event * string)) (g : t) : run t :=
  match rounds with
  | [] => Continue g
  | (events, choice) :: rest =>
      match play_round events choice g with
      | Continue g' => play rest g'
      | stop => stop
      end
  end.

End OneVsOne.

(** ** FourInROW_game: from the menu to a match *)

(** The labels [show_menu] puts on its buttons; for an opponent type that
    is neither name [button_texts] is never bound and the call fails:
    [None]. *)
Definition menu_buttons (opponent_type : string) : option (list string) :=
  if bool_decide (opponent_type = "human") then Some ["Play"; "Exit"]
  else if bool_decide (opponent_type = "computer")
  then Some ["Easy"; "Medium"; "Hard"; "Exit"]
  else None.

(** The object [FourInROW_game] builds for the label the menu returned. *)
Inductive match_object : Type :=
  | Game1v1 (g : option OneVsOne.t)
  | GameAI (s : option AI_session)
  | NoGame.

Definition build_match (game_mode : string) (row_size column_size : nat)
    (first_player : string) : match_object :=
  if bool_decide (game_mode = "Play")
  then Game1v1 (OneVsOne.init row_size column_size first_player)
  else if bool_decide (game_mode = "Easy") || bool_decide (game_mode = "Medium")
          || bool_decide (game_mode = "Hard")
  then GameAI (AI_session_init row_size column_size first_player game_mode)
  else NoGame.

(** ** Notions the properties are stated with *)

(** A position is [(row, column)], row 0 at the top. *)
Abbreviation pos := (nat * nat)%type.

Definition mark_at (s : board) (p : pos) : cell := cell_at s p.1 p.2.

(** The four directions of a line; [UpRight] climbs one row per column. *)
Inductive direction : Type := Horizontal | Vertical | DownRight | UpRight.

(** [q] is the neighbour of [p] along [d]. *)
Definition adjacent (d : direction) (p q : pos) : Prop :=
  match d with
  | Horizontal => q.1 = p.1 /\ q.2 = p.2 + 1
  | Vertical => q.1 = p.1 + 1 /\ q.2 = p.2
  | DownRight => q.1 = p.1 + 1 /\ q.2 = p.2 + 1
  | UpRight => p.1 = q.1 + 1 /\ q.2 = p.2 + 1
  end.

(** Consecutive positions of [l] are neighbours along [d]. *)
Fixpoint straight (d : direction) (l : list pos) : Prop :=
  match l with
  | p :: (q :: _) as l' => adjacent d p q /\ straight d l'
  | _ => True
  end.

Definition in_grid (R C : nat) (p : pos) : Prop := p.1 < R /\ p.2 < C.

(** The four positions of the line that starts at [(r, c)]. *)
Definition line_from (d : direction) (r c : nat) : list pos :=
  match d with
  | Horizontal => [(r, c); (r, c + 1); (r, c + 2); (r, c + 3)]
  | Vertical => [(r, c); (r + 1, c); (r + 2, c); (r + 3, c)]
  | DownRight => [(r, c); (r + 1, c + 1); (r + 2, c + 2); (r + 3, c + 3)]
  | UpRight => [(r, c); (r - 1, c + 1); (r - 2, c + 2); (r - 3, c + 3)]
  end.

(** The lines of direction [d] whose start has its row in [rs] and its
    column in [cs], rows outermost. *)
Definition family (d : direction) (rs cs : list nat) : list (list pos) :=
  flat_map (fun r => map (fun c => line_from d r c) cs) rs.

(** Every run of four cells of an [R] by [C] grid, in scan order: the rows
    top to bottom and left to right, then the columns, then the diagonals
    going down-right, then the diagonals going up-right. *)
Definition lines (R C : nat) : list (list pos) :=
  family Horizontal (range 0 R) (range 0 (C - 3))
  ++ family Vertical (range 0 (R - 3)) (range 0 C)
  ++ family DownRight (range 0 (R - 3)) (range 0 (C - 3))
  ++ family UpRight (range 3 R) (range 0 (C - 3)).

(** The line of direction [d] that starts at [(r, c)] lies in the grid. *)
Definition fits (R C : nat) (d : direction) (r c : nat) : Prop :=
  match d with
  | Horizontal => r < R /\ c + 3 < C
  | Vertical => r + 3 < R /\ c < C
  | DownRight => r + 3 < R /\ c + 3 < C
  | UpRight => 3 <= r < R /\ c + 3 < C
  end.

(** All cells of [l] hold [p]. *)
Definition holds (s : board) (p : cell) (l : list pos) : bool :=
  forallb (fun q => bool_decide (mark_at s q = p)) l.

(** All cells of [l] hold the mark of its first cell, which is not
    [Empty]. *)
Definition wins (s : board) (l : list pos) : bool :=
  match l with
  | [] => false
  | p :: rest =>
      negb (bool_decide (mark_at s p = Empty))
      && forallb (fun q => bool_decide (mark_at s q = mark_at s p)) rest
  end.

(** What is reported for a winning line: its mark and its positions. *)
Definition report (s : board) (l : list pos) : cell * list pos :=
  (match l with p :: _ => mark_at s p | [] => Empty end, l).

(** The score table of the evaluator, by the numbers of ['O'], ['X'] and
    ['.'] in a window. *)
Definition window_score (w : list cell) : Z :=
  match count w O, count w X, count w Empty with
  | 4, 0, 0 => 100%Z
  | 3, 0, 1 => 5%Z
  | 2, 0, 2 => 2%Z
  | 0, 4, 0 => (-100)%Z
  | 0, 3, 1 => (-5)%Z
  | 0, 2, 2 => (-2)%Z
  | _, _, _ => 0%Z
  end.

Definition Zsum (l : list Z) : Z := fold_right Z.add 0%Z l.

(** [m] is the greatest (least) element of [vs]; of no elements it is the
    value the loop starts from. *)
Definition is_maximum (m : ext) (vs : list ext) : Prop :=
  Forall (fun v => ext_le v m) vs /\ (vs = [] -> m = NegInf) /\ (vs <> [] -> m ∈ vs).

Definition is_minimum (m : ext) (vs : list ext) : Prop :=
  Forall (fun v => ext_le m v) vs /\ (vs = [] -> m = PosInf) /\ (vs <> [] -> m ∈ vs).

(** The values of the children of [s], one per move, in order. *)
Definition children_values (s : board) (d : nat) (mark : cell) (flag : bool)
    (moves : list nat) (vs : list ext) : Prop :=
  Forall2 (fun move v =>
    exists child, make_move s move mark = Ok child /\
                  minimax child d flag = Ok v) moves vs.

(** Gravity: no [Empty] cell lies directly under an occupied one. *)
Definition gravity (s : board) : bool :=
  forallb (fun c =>
    forallb (fun r =>
      bool_decide (cell_at s r c = Empty)
      || negb (bool_decide (cell_at s (r + 1) c = Empty)))
      (range 0 (length s - 1))) (range 0 (columns s)).

(** A column the rules call legal: inside the grid, top cell [Empty]. *)
Definition legal (C : nat) (s : board) (col : nat) : Prop :=
  col < C /\ cell_at s 0 col = Empty.

(** ['X'] for ['O'] and ['O'] for ['X']. *)
Definition swap_mark (x : cell) : cell :=
  match x with
  | Empty => Empty
  | X => O
  | O => X
  end.

Definition swap_marks (s : board) : board := map (map swap_mark) s.

(** How many cells of the grid hold [x]. *)
Definition count_board (s : board) (x : cell) : nat :=
  count (concat s) x.

(** The moving piece is over a column of a window [C] columns wide. *)
Definition piece_in_window (C : nat) (p : Piece.t) : Prop :=
  (0 <= Piece.center_x p < Z.of_nat C * cell_size)%Z.


(** What every step of [play] keeps: the grid has the size of the match
    and obeys gravity, the moving piece is over a column, the flag
    [last_move] reads "Random" and nothing is waiting to be reported. *)
Definition session_shape (R C : nat) (s : AI_session) : Prop :=
  rows_number (game s) = R /\ columns_number (game s) = C /\
  rect R C (state (game s)) /\ gravity (state (game s)) = true /\
  piece_in_window C (movable_piece s) /\
  last_move (game s) = "Random" /\
  winning_pieces s = None.


(** What holds of a [GAME_AI] object whenever a round of [play] starts:
    the grid has the size of the match and obeys gravity, the moving piece
    is over a column, the flag [last_move] still reads "Random", and the
    game is on (a free cell, no line of four, nothing to report). *)
Definition session_ok (R C : nat) (s : AI_session) : Prop :=
  rows_number (game s) = R /\ columns_number (game s) = C /\ 1 <= C /\
  rect R C (state (game s)) /\ gravity (state (game s)) = true /\
  piece_in_window C (movable_piece s) /\
  last_move (game s) = "Random" /\
  board_full (state (game s)) = false /\
  is_a_winner (state (game s)) = None /\
  winning_pieces s = None.



(** The marks take turns: with [first] the mark of the player who began
    and [second] the other, either the moving piece shows the first
    player and both have as many pieces, or it shows the second and the
    first is one piece ahead. *)
Definition marks_alternate (g : OneVsOne.t) : Prop :=
  let player := Piece.current_player (OneVsOne.movable_piece g) in
  let xs := count_board (OneVsOne.state g) X in
  let os := count_board (OneVsOne.state g) O in
  if bool_decide (OneVsOne.first_player g = "player1")
  then (player = 1%Z /\ xs = os) \/ (player = 2%Z /\ xs = os + 1)
  else (player = 2%Z /\ os = xs) \/ (player = 1%Z /\ os = xs + 1).

(** What every step of a two-player game keeps. *)
Definition game_1v1_ok (R C : nat) (g : OneVsOne.t) : Prop :=
  OneVsOne.rows_number g = R /\ OneVsOne.columns_number g = C /\
  rect R C (OneVsOne.state g) /\ gravity (OneVsOne.state g) = true /\
  piece_in_window C (OneVsOne.movable_piece g) /\
  (OneVsOne.first_player g = "player1" \/ OneVsOne.first_player g = "player2") /\
  marks_alternate g.

(** The five messages [validate] raises itself. *)
Definition error_messages : list string :=
  [ "ERROR: Opponent type must be 'human' or 'computer'!";
    "ERROR: The number of rows must be between 4 and 8!";
    "ERROR: The number of columns must be between 4 and 16!";
    "ERROR: In 1v1 games, the first move should be made by 'player1' or 'player2'!";
    "ERROR: In the games against computer, the first move should be made by 'Computer' or 'Human'!" ].

(** A configuration the start-up accepts, [int] reading the two sizes. *)
Definition valid_configuration (int : string -> Z + string)
    (opponent_type row_size column_size first_player : string) : Prop :=
  (opponent_type = "human" \/ opponent_type = "computer") /\
  (exists rows, int row_size = inl rows /\ (4 <= rows <= 8)%Z) /\
  (exists cols, int column_size = inl cols /\ (4 <= cols <= 16)%Z) /\
  (opponent_type = "human" ->
   first_player = "player1" \/ first_player = "player2") /\
  (opponent_type = "computer" ->
   first_player = "computer" \/ first_player = "human").

(** ** Sample positions *)

(** Six rows, seven columns, a game in progress. *)
Definition midgame : board :=
  [ [Empty; Empty; Empty; Empty; Empty; Empty; Empty];
    [Empty; Empty; Empty; Empty; Empty; Empty; Empty];
    [Empty; Empty; Empty; Empty; Empty; Empty; Empty];
    [Empty; Empty; Empty; O;     Empty; Empty; Empty];
    [Empty; Empty; X;     O;     Empty; Empty; Empty];
    [Empty; X;     X;     O;     O;     Empty; Empty] ].

(** Four rows, four columns, the leftmost column filled to the top. *)
Definition left_column_full : board :=
  [ [X; Empty; Empty; Empty];
    [O; Empty; Empty; Empty];
    [X; Empty; Empty; Empty];
    [O; O;     X;     Empty] ].

(** Two rows, two columns, a piece hanging over an empty cell: a grid no
    game produces. *)
Definition hanging : board :=
  [ [X;     Empty];
    [Empty; Empty] ].

(** A reading of decimal numerals good enough for the samples. *)
Definition sample_int (text : string) : Z + string :=
  if bool_decide (text = "6") then inl 6%Z
  else if bool_decide (text = "7") then inl 7%Z
  else if bool_decide (text = "3") then inl 3%Z
  else inr "invalid literal for int() with base 10".

(** An Easy match in which the computer moves first. *)
Definition easy_match : GAME_AI := GAME_AI_init 6 7 "computer" "Easy".

(** [easy_match] after the computer's first turn, and after the human's
    answer in column 3 and the computer's second turn. *)
Definition easy_after_first_turn : GAME_AI :=
  {| last_move := "Random";
     start_move := Some "Smart";
     rows_number := 6;
     columns_number := 7;
     first_player := "computer";
     current_player := "human";
     game_mode := "Easy";
     state :=
       [ [Empty; Empty; Empty; Empty; Empty; Empty; Empty];
         [Empty; Empty; Empty; Empty; Empty; Empty; Empty];
         [Empty; Empty; Empty; Empty; Empty; Empty; Empty];
         [Empty; Empty; Empty; Empty; Empty; Empty; Empty];
         [Empty; Empty; Empty; Empty; Empty; Empty; Empty];
         [O;     Empty; Empty; Empty; Empty; Empty; Empty] ];
     minimax_hard := 3;
     minimax_medium := 2;
     minimax_easy := 0 |}.

Definition easy_after_second_turn : GAME_AI :=
  {| last_move := "Random";
     start_move := Some "Smart";
     rows_number := 6;
     columns_number := 7;
     first_player := "computer";
     current_player := "human";
     game_mode := "Easy";
     state :=
       [ [Empty; Empty; Empty; Empty; Empty; Empty; Empty];
         [Empty; Empty; Empty; Empty; Empty; Empty; Empty];
         [Empty; Empty; Empty; Empty; Empty; Empty; Empty];
         [Empty; Empty; Empty; Empty; Empty; Empty; Empty];
         [O;     Empty; Empty; Empty; Empty; Empty; Empty];
         [O;     Empty; Empty; X;     Empty; Empty; Empty] ];
     minimax_hard := 3;
     minimax_medium := 2;
     minimax_easy := 0 |}.

(** Drops the marks of [moves] one after the other. *)
Definition drops (s : board) (moves : list (nat * cell)) : result board :=
  for_acc moves (fun '(col, mark) acc => s' ← acc; make_move s' col mark) (Ok s).

(** Both players have a row of four; ['X'] has the upper one. *)
Definition two_rows : board :=
  [ [Empty; Empty; Empty; Empty];
    [X;     X;     X;     X];
    [O;     O;     O;     O];
    [O;     X;     O;     X] ].

(** A four by four match against the computer, its leftmost column full. *)
Definition small_match : GAME_AI :=
  set_state (GAME_AI_init 4 4 "human" "Hard") left_column_full.

(** [easy_match] as a whole object, the human about to answer the
    computer's first move. *)
Definition easy_session : AI_session :=
  mkAI_session easy_after_first_turn
               (Piece.mk true 1 (255, 0, 0)%Z 350 50 60) None.

(** Proves [rect R C s] for a literal grid. *)
Ltac rect_by_computation :=
  split; [lia | split; [reflexivity | repeat constructor]].

(** Closes [cell_at s a b = p] from a hypothesis about the same cell
    written with other arithmetic. *)
Ltac same_cell :=
  match goal with
  | |- cell_at ?s ?a ?b = ?p =>
      match goal with
      | H : cell_at s ?a' ?b' = p |- _ =>
          replace a with a' by lia; replace b with b' by lia; exact H
      end
  end.

(** Case analysis on extended integers and their comparisons. *)
Ltac ext_cases :=
  unfold ext_le, ext_max, ext_min in *;
  repeat match goal with
         | v : ext |- _ => destruct v
         end;
  simpl in *;
  repeat (match goal with
          | H : (_ <? _)%Z = true |- _ => apply Z.ltb_lt in H
          | H : (_ <? _)%Z = false |- _ => apply Z.ltb_ge in H
          | H : context [(?x <? ?y)%Z] |- _ => destruct (Z.ltb_spec x y)
          | |- context [(?x <? ?y)%Z] => destruct (Z.ltb_spec x y)
          end; simpl in *);
  try done; try lia.

(** * Properties *)

(** ** Reading and writing a rectangular grid *)

Lemma rect_columns R C (s : board) : rect R C s -> columns s = C.
Proof.
  intros (HR & Hlen & Hall). destruct s as [|row s]; simpl in *; [lia|].
  by inversion Hall.
Qed.

Lemma rect_row R C (s : board) r :
  rect R C s -> r < R -> exists row, s !! r = Some row /\ length row = C.
Proof.
  intros (HR & Hlen & Hall) Hr.
  destruct (lookup_lt_is_Some_2 s r) as [row Hrow]; [lia|].
  exists row. split; [done|]. by eapply (Forall_lookup_1 _ _ _ _ Hall).
Qed.

Lemma rect_cell R C (s : board) r c :
  rect R C s -> r < R -> c < C ->
  exists row, s !! r = Some row /\ length row = C /\ row !! c = Some (cell_at s r c).
Proof.
  intros Hs Hr Hc. destruct (rect_row R C s r Hs Hr) as (row & Hrow & Hlen).
  exists row. split; [done|]. split; [done|].
  unfold cell_at. rewrite Hrow.
  destruct (lookup_lt_is_Some_2 row c) as [x Hx]; [lia|]. by rewrite Hx.
Qed.

Lemma rectb_rect R C (s : board) : rectb R C s = true <-> rect R C s.
Proof.
  unfold rectb, rect. rewrite !andb_true_iff, Nat.leb_le, Nat.eqb_eq.
  rewrite forallb_forall, list.Forall_forall.
  split.
  - intros [[HR Hl] Hall]. do 2 (split; [done|]). intros x Hx.
    rewrite <- Nat.eqb_eq. apply Hall. by apply list_elem_of_In.
  - intros (HR & Hl & Hall). split; [done|]. intros x Hx.
    rewrite Nat.eqb_eq. apply Hall. by apply list_elem_of_In.
Qed.

Lemma rect_write R C (s : board) r row col p :
  rect R C s -> s !! r = Some row ->
  rect R C (<[r := <[col := p]> row]> s).
Proof.
  intros (HR & Hlen & Hall) Hrow. split; [done|]. split.
  - by rewrite length_insert.
  - apply Forall_insert; [done|]. rewrite length_insert.
    by eapply (Forall_lookup_1 _ _ _ _ Hall).
Qed.

Lemma cell_at_write (s : board) r row col p r' c' :
  s !! r = Some row -> col < length row ->
  cell_at (<[r := <[col := p]> row]> s) r' c' =
  if decide (r' = r /\ c' = col) then p else cell_at s r' c'.
Proof.
  intros Hrow Hcol. unfold cell_at.
  assert (Hr : r < length s) by (by eapply lookup_lt_Some).
  destruct (decide (r' = r)) as [->|Hne].
  - rewrite list_lookup_insert_eq by done. rewrite Hrow.
    destruct (decide (c' = col)) as [->|Hnc].
    + rewrite list_lookup_insert_eq by done. by rewrite decide_True.
    + rewrite list_lookup_insert_ne by done. rewrite decide_False; [done|tauto].
  - rewrite list_lookup_insert_ne by done. rewrite decide_False; [done|tauto].
Qed.

Lemma in_range a b x : x ∈ range a b <-> a <= x < b.
Proof. unfold range. rewrite elem_of_seq. lia. Qed.

Lemma In_range a b x : In x (range a b) <-> a <= x < b.
Proof. rewrite <- list_elem_of_In. apply in_range. Qed.

(** ** make_move *)

(** What the loop of [make_move] does on a column of the grid: either the
    rows it visits are all occupied and the grid is returned as it is, or
    the mark goes to the lowest [Empty] row among them. *)
Lemma drop_piece_cases R C (s : board) col p n :
  rect R C s -> col < C -> n <= R ->
  ((forall r, r < n -> cell_at s r col <> Empty) /\ drop_piece s col p n = Ok s)
  \/ (exists r row, r < n /\ s !! r = Some row /\ length row = C /\
        cell_at s r col = Empty /\
        (forall r', r < r' < n -> cell_at s r' col <> Empty) /\
        drop_piece s col p n = Ok (<[r := <[col := p]> row]> s)).
Proof.
  intros Hs Hcol. induction n as [|n IH]; intros Hn.
  - left. split; [lia|done].
  - destruct (rect_cell R C s n col Hs) as (row & Hrow & Hlen & Hc); [lia|done|].
    simpl. rewrite Hrow, Hc.
    destruct (cell_at s n col) eqn:Hcell.
    + right. exists n, row. repeat split; try done; [lia|]. intros r' Hr'. lia.
    + destruct IH as [[Hall Hd]|(r & row' & Hr & Hrow' & Hlen' & He & Hbelow & Hd)]; [lia| |].
      * left. split; [|done]. intros r Hr.
        destruct (decide (r = n)) as [->|]; [by rewrite Hcell|]. apply Hall. lia.
      * right. exists r, row'. repeat split; try done; [lia|].
        intros r' Hr'. destruct (decide (r' = n)) as [->|]; [by rewrite Hcell|].
        apply Hbelow. lia.
    + destruct IH as [[Hall Hd]|(r & row' & Hr & Hrow' & Hlen' & He & Hbelow & Hd)]; [lia| |].
      * left. split; [|done]. intros r Hr.
        destruct (decide (r = n)) as [->|]; [by rewrite Hcell|]. apply Hall. lia.
      * right. exists r, row'. repeat split; try done; [lia|].
        intros r' Hr'. destruct (decide (r' = n)) as [->|]; [by rewrite Hcell|].
        apply Hbelow. lia.
Qed.

(** The shape of the result of [make_move] on a legal column. *)
Lemma make_move_legal R C (s : board) col p :
  rect R C s -> legal C s col ->
  exists s' r,
    make_move s col p = Ok s' /\ rect R C s' /\ r < R /\
    cell_at s r col = Empty /\
    (forall r', r < r' < R -> cell_at s r' col <> Empty) /\
    (forall r' c', cell_at s' r' c' =
                   if decide (r' = r /\ c' = col) then p else cell_at s r' c').
Proof.
  intros Hs [Hcol Htop]. pose proof Hs as (HR & Hlen & _).
  unfold make_move. rewrite Hlen.
  destruct (drop_piece_cases R C s col p R Hs Hcol) as
    [[Hall _]|(r & row & Hr & Hrow & Hlenr & He & Hbelow & Hd)]; [lia| |].
  - exfalso. apply (Hall 0); [lia|done].
  - exists (<[r := <[col := p]> row]> s), r.
    split; [done|]. split; [by apply rect_write|]. do 3 (split; [done|]).
    intros r' c'. apply cell_at_write; [done|lia].
Qed.

(** On a column of the grid [make_move] returns; off the grid it raises
    [IndexError]. *)
Lemma make_move_returns R C (s : board) col p :
  rect R C s -> col < C -> exists s', make_move s col p = Ok s' /\ rect R C s'.
Proof.
  intros Hs Hcol. pose proof Hs as (HR & Hlen & _).
  unfold make_move. rewrite Hlen.
  destruct (drop_piece_cases R C s col p R Hs Hcol) as
    [[_ Hd]|(r & row & Hr & Hrow & Hlenr & He & Hbelow & Hd)]; [lia| |].
  - by exists s.
  - eexists. split; [done|]. by apply rect_write.
Qed.

Lemma make_move_off_grid R C (s : board) col p :
  rect R C s -> C <= col -> make_move s col p = Raise IndexError.
Proof.
  intros Hs Hcol. pose proof Hs as (HR & Hlen & _).
  unfold make_move. rewrite Hlen. destruct R as [|R]; [lia|].
  destruct (rect_row (S R) C s R Hs) as (row & Hrow & Hlenr); [lia|].
  simpl. rewrite Hrow. by rewrite lookup_ge_None_2 by lia.
Qed.

(** ** Gravity *)

Lemma gravity_iff R C (s : board) :
  rect R C s ->
  gravity s = true <->
  (forall c r, c < C -> r + 1 < R ->
     cell_at s r c <> Empty -> cell_at s (r + 1) c <> Empty).
Proof.
  intros Hs. pose proof Hs as (HR & Hlen & _).
  unfold gravity. rewrite (rect_columns R C s Hs), Hlen, forallb_forall.
  split.
  - intros H c r Hc Hr Hocc.
    specialize (H c). rewrite In_range in H.
    assert (Hc' : 0 <= c < C) by lia. specialize (H Hc').
    rewrite forallb_forall in H. specialize (H r).
    rewrite In_range in H. assert (Hr' : 0 <= r < R - 1) by lia.
    specialize (H Hr'). apply orb_true_iff in H as [H|H].
    + apply bool_decide_eq_true in H. done.
    + apply negb_true_iff, bool_decide_eq_false in H. done.
  - intros H c Hc. apply In_range in Hc. apply forallb_forall. intros r Hr.
    apply In_range in Hr. apply orb_true_iff.
    destruct (decide (cell_at s r c = Empty)) as [He|Hne].
    + left. by apply bool_decide_eq_true.
    + right. apply negb_true_iff, bool_decide_eq_false. apply H; [lia|lia|done].
Qed.

(** Under gravity everything below an occupied cell is occupied. *)
Lemma gravity_below R C (s : board) c r r' :
  rect R C s -> gravity s = true -> c < C -> r <= r' -> r' < R ->
  cell_at s r c <> Empty -> cell_at s r' c <> Empty.
Proof.
  intros Hs Hg Hc Hle. rewrite (gravity_iff R C s Hs) in Hg.
  induction Hle as [|r' Hle IH]; intros Hr' Hocc; [done|].
  replace (S r') with (r' + 1) by lia. apply Hg; [done|lia|]. apply IH; [lia|done].
Qed.

Lemma gravity_empty_board R C : gravity (empty_board R C) = true.
Proof.
  unfold gravity. apply forallb_forall. intros c _. apply forallb_forall.
  intros r Hr. apply In_range in Hr. apply orb_true_iff. left.
  apply bool_decide_eq_true. unfold cell_at, empty_board.
  destruct (replicate R (replicate C Empty) !! r) as [row|] eqn:Hrow; [|done].
  apply lookup_replicate in Hrow as [-> _].
  destruct (replicate C Empty !! c) as [x|] eqn:Hx; [|done].
  by apply lookup_replicate in Hx as [-> _].
Qed.

Lemma rect_empty_board R C : 1 <= R -> rect R C (empty_board R C).
Proof.
  intros HR. split; [done|]. unfold empty_board. split.
  - by rewrite length_replicate.
  - apply Forall_replicate. by rewrite length_replicate.
Qed.

(** A move keeps gravity. *)
Lemma gravity_make_move R C (s s' : board) col p :
  rect R C s -> gravity s = true -> legal C s col -> p <> Empty ->
  make_move s col p = Ok s' -> gravity s' = true.
Proof.
  intros Hs Hg Hleg Hp Hmove.
  destruct (make_move_legal R C s col p Hs Hleg)
    as (s1 & r0 & Hm & Hs1 & Hr0 & He & Hbelow & Hcells).
  rewrite Hmove in Hm. injection Hm as <-.
  rewrite (gravity_iff R C s Hs) in Hg. rewrite (gravity_iff R C s' Hs1).
  intros c r Hc Hr. rewrite !Hcells.
  destruct (decide (r + 1 = r0 /\ c = col)) as [_|Hn1]; [done|].
  destruct (decide (r = r0 /\ c = col)) as [[-> ->]|Hn2].
  - intros _. apply Hbelow. lia.
  - by apply Hg.
Qed.

(** A column whose cells are all occupied is left as it is. *)
Lemma make_move_full_column R C (s : board) col p :
  rect R C s -> col < C -> (forall r, r < R -> cell_at s r col <> Empty) ->
  make_move s col p = Ok s.
Proof.
  intros Hs Hcol Hfull. pose proof Hs as (HR & Hlen & _).
  unfold make_move. rewrite Hlen.
  destruct (drop_piece_cases R C s col p R Hs Hcol) as
    [[_ Hd]|(r & row & Hr & Hrow & Hlenr & He & Hbelow & Hd)]; [lia|done|].
  exfalso. by apply (Hfull r).
Qed.

Lemma get_possible_moves_legal R C (s : board) col :
  rect R C s -> (col ∈ get_possible_moves s <-> legal C s col).
Proof.
  intros Hs. unfold get_possible_moves, legal. rewrite (rect_columns R C s Hs).
  rewrite list_elem_of_In, filter_In, In_range, bool_decide_eq_true.
  split; [intros [[_ ?] ?]; done | intros [? ?]; split; [lia|done]].
Qed.

(** C3. On a rectangular grid and a legal column (inside the grid, top cell
    [Empty]), [make_move] returns a grid in which the mark sits in the
    lowest [Empty] row of that column (the greatest row [r] whose cell in
    the column was [Empty]) and every other cell is as it was. *)
Theorem make_move_places_mark R C (s : board) col mark :
  rect R C s -> legal C s col ->
  exists s' r,
    make_move s col mark = Ok s' /\
    r < R /\ cell_at s r col = Empty /\
    (forall r', r < r' < R -> cell_at s r' col <> Empty) /\
    cell_at s' r col = mark /\
    (forall r' c', (r', c') <> (r, col) -> cell_at s' r' c' = cell_at s r' c') /\
    rect R C s'.
Proof.
  intros Hs Hleg.
  destruct (make_move_legal R C s col mark Hs Hleg)
    as (s' & r & Hm & Hs' & Hr & He & Hbelow & Hcells).
  exists s', r. do 4 (split; [done|]). split; [|split; [|done]].
  - rewrite Hcells. by rewrite decide_True.
  - intros r' c' Hne. rewrite Hcells. rewrite decide_False; [done|].
    intros [-> ->]. done.
Qed.

Lemma make_move_places_mark_witness :
  exists s' r,
    make_move midgame 3 X = Ok s' /\
    r < 6 /\ cell_at midgame r 3 = Empty /\
    (forall r', r < r' < 6 -> cell_at midgame r' 3 <> Empty) /\
    cell_at s' r 3 = X /\
    (forall r' c', (r', c') <> (r, 3) -> cell_at s' r' c' = cell_at midgame r' c') /\
    rect 6 7 s'.
Proof.
  apply (make_move_places_mark 6 7 midgame 3 X).
  - rect_by_computation.
  - split; [lia | reflexivity].
Defined.

(** C10. On a grid that obeys gravity, a column whose top cell (row 0) is
    not [Empty] is full, and [make_move] on it returns the grid it was
    given: no cell changes and nothing is raised. *)
Theorem make_move_full_is_noop R C (s : board) col mark :
  rect R C s -> gravity s = true -> col < C -> cell_at s 0 col <> Empty ->
  make_move s col mark = Ok s.
Proof.
  intros Hs Hg Hcol Htop. apply (make_move_full_column R C); [done|done|].
  intros r Hr. apply (gravity_below R C s col 0 r); try done. lia.
Qed.

Lemma make_move_full_is_noop_witness :
  make_move left_column_full 0 O = Ok left_column_full.
Proof.
  apply (make_move_full_is_noop 4 4 left_column_full 0 O).
  - rect_by_computation.
  - reflexivity.
  - lia.
  - discriminate.
Defined.

(** C2, as the program has it.  There is no [InvalidMove].  A column is
    given by its index counted from 0.  On a full column of the grid (all
    its cells occupied) [make_move] returns normally, and returns the grid
    it was given; on every column of the grid, full or not, it returns a
    grid of the same shape; on an index at or beyond the number of columns
    it raises [IndexError]; and it raises nothing else. *)
Theorem make_move_raises_only_off_grid R C (s : board) col mark :
  rect R C s ->
  (col < C -> (forall r, r < R -> cell_at s r col <> Empty) ->
   make_move s col mark = Ok s) /\
  (col < C -> exists s', make_move s col mark = Ok s' /\ rect R C s') /\
  (C <= col -> make_move s col mark = Raise IndexError) /\
  (forall e, make_move s col mark = Raise e -> e = IndexError /\ C <= col).
Proof.
  intros Hs. split; [|split; [|split]].
  - intros Hcol Hfull. by apply (make_move_full_column R C).
  - intros Hcol. by apply make_move_returns.
  - intros Hcol. by apply (make_move_off_grid R C).
  - intros e He. destruct (decide (col < C)) as [Hlt|Hge].
    + destruct (make_move_returns R C s col mark Hs Hlt) as (s' & Hm & _).
      rewrite Hm in He. discriminate.
    + rewrite (make_move_off_grid R C s col mark Hs) in He by lia.
      injection He as <-. split; [done|lia].
Qed.

Lemma make_move_raises_only_off_grid_witness :
  ((0 < 4 -> (forall r, r < 4 -> cell_at left_column_full r 0 <> Empty) ->
    make_move left_column_full 0 X = Ok left_column_full) /\
   (0 < 4 -> exists s', make_move left_column_full 0 X = Ok s' /\ rect 4 4 s') /\
   (4 <= 0 -> make_move left_column_full 0 X = Raise IndexError) /\
   (forall e, make_move left_column_full 0 X = Raise e -> e = IndexError /\ 4 <= 0))
  /\
  ((4 < 4 -> (forall r, r < 4 -> cell_at left_column_full r 4 <> Empty) ->
    make_move left_column_full 4 X = Ok left_column_full) /\
   (4 < 4 -> exists s', make_move left_column_full 4 X = Ok s' /\ rect 4 4 s') /\
   (4 <= 4 -> make_move left_column_full 4 X = Raise IndexError) /\
   (forall e, make_move left_column_full 4 X = Raise e -> e = IndexError /\ 4 <= 4)).
Proof.
  split.
  - apply (make_move_raises_only_off_grid 4 4 left_column_full 0 X).
    rect_by_computation.
  - apply (make_move_raises_only_off_grid 4 4 left_column_full 4 X).
    rect_by_computation.
Defined.

(** C2, as stated, fails: column 0 of [left_column_full] is full (all four
    cells occupied) and [make_move] on it returns normally, with the grid
    unchanged, instead of raising. *)
Lemma make_move_full_column_returns :
  (forall r, r < 4 -> cell_at left_column_full r 0 <> Empty) /\
  make_move left_column_full 0 X = Ok left_column_full /\
  ~ (exists e, make_move left_column_full 0 X = Raise e).
Proof.
  split; [|split].
  - intros r Hr. do 4 (destruct r as [|r]; [discriminate|]). lia.
  - reflexivity.
  - intros [e He]. discriminate.
Defined.

(** ** Loops that return at the first hit *)

Lemma first_some_app {A B} (l1 l2 : list A) (f : A -> option B) :
  first_some (l1 ++ l2) f =
  match first_some l1 f with Some w => Some w | None => first_some l2 f end.
Proof.
  induction l1 as [|a l1 IH]; simpl; [done|]. by destruct (f a).
Qed.

Lemma first_some_map {A A' B} (h : A -> A') (l : list A) (f : A' -> option B) :
  first_some (map h l) f = first_some l (fun a => f (h a)).
Proof.
  induction l as [|a l IH]; simpl; [done|]. by rewrite IH.
Qed.

Lemma first_some_ext {A B} (l : list A) (f g : A -> option B) :
  (forall a, f a = g a) -> first_some l f = first_some l g.
Proof.
  intros Hfg. induction l as [|a l IH]; simpl; [done|]. by rewrite Hfg, IH.
Qed.

Lemma first_some_find {A B} (l : list A) (t : A -> bool) (v : A -> B) :
  first_some l (fun a => if t a then Some (v a) else None) = v <$> List.find t l.
Proof.
  induction l as [|a l IH]; simpl; [done|]. by destruct (t a).
Qed.

(** What one step of a scan yields on a candidate line. *)
Lemma four_equal_wins (s : board) p1 p2 p3 p4 :
  (if four_equal (mark_at s p1) (mark_at s p2) (mark_at s p3) (mark_at s p4)
   then Some (mark_at s p1, [p1; p2; p3; p4]) else None)
  = (if wins s [p1; p2; p3; p4] then Some (report s [p1; p2; p3; p4]) else None).
Proof.
  unfold four_equal, wins, report. simpl.
  destruct (mark_at s p1), (mark_at s p2), (mark_at s p3), (mark_at s p4);
    reflexivity.
Qed.

(** Two nested scanning loops visit the lines of a family in order. *)
Lemma scan_family {B} (d : direction) (rs cs : list nat)
    (body : nat -> nat -> option B) (g : list pos -> option B) :
  (forall r c, body r c = g (line_from d r c)) ->
  first_some rs (fun r => first_some cs (body r)) = first_some (family d rs cs) g.
Proof.
  intros Hbody. unfold family. induction rs as [|r rs IH]; simpl; [done|].
  rewrite first_some_app, first_some_map, IH.
  by rewrite (first_some_ext cs (body r) (fun c => g (line_from d r c))).
Qed.

Lemma orelse_congr {B} (a a' b b' : option B) :
  a = a' -> b = b' ->
  match a with Some w => Some w | None => b end =
  match a' with Some w => Some w | None => b' end.
Proof. by intros -> ->. Qed.

(** [is_a_winner] reports the first line, in scan order, that wins. *)
Lemma is_a_winner_find (s : board) :
  is_a_winner s = report s <$> List.find (wins s) (lines (length s) (columns s)).
Proof.
  rewrite <- first_some_find. unfold is_a_winner, lines.
  rewrite !first_some_app.
  repeat apply orelse_congr.
  - apply (scan_family Horizontal). intros r c.
    exact (four_equal_wins s (r, c) (r, c + 1) (r, c + 2) (r, c + 3)).
  - apply (scan_family Vertical). intros r c.
    exact (four_equal_wins s (r, c) (r + 1, c) (r + 2, c) (r + 3, c)).
  - apply (scan_family DownRight). intros r c.
    exact (four_equal_wins s (r, c) (r + 1, c + 1) (r + 2, c + 2) (r + 3, c + 3)).
  - apply (scan_family UpRight). intros r c.
    exact (four_equal_wins s (r, c) (r - 1, c + 1) (r - 2, c + 2) (r - 3, c + 3)).
Qed.

(** ** The lines of a grid *)

Lemma in_family d rs cs l :
  In l (family d rs cs) <-> exists r c, In r rs /\ In c cs /\ l = line_from d r c.
Proof.
  unfold family. rewrite in_flat_map. split.
  - intros (r & Hr & Hl). apply in_map_iff in Hl as (c & <- & Hc). by exists r, c.
  - intros (r & c & Hr & Hc & ->). exists r. split; [done|].
    apply in_map_iff. by exists c.
Qed.

Lemma in_lines R C l :
  In l (lines R C) <-> exists d r c, fits R C d r c /\ l = line_from d r c.
Proof.
  unfold lines. rewrite !in_app_iff, !in_family. split.
  - intros [H|[H|[H|H]]]; destruct H as (r & c & Hr & Hc & ->);
      apply In_range in Hr; apply In_range in Hc.
    + exists Horizontal, r, c. simpl. split; [lia|done].
    + exists Vertical, r, c. simpl. split; [lia|done].
    + exists DownRight, r, c. simpl. split; [lia|done].
    + exists UpRight, r, c. simpl. split; [lia|done].
  - intros (d & r & c & Hfit & ->). destruct d; simpl in Hfit.
    + left. exists r, c. rewrite !In_range. split; [lia|]. split; [lia|done].
    + right; left. exists r, c. rewrite !In_range. split; [lia|]. split; [lia|done].
    + right; right; left. exists r, c. rewrite !In_range.
      split; [lia|]. split; [lia|done].
    + right; right; right. exists r, c. rewrite !In_range.
      split; [lia|]. split; [lia|done].
Qed.

Lemma line_from_shape R C d r c :
  fits R C d r c ->
  length (line_from d r c) = 4 /\ straight d (line_from d r c) /\
  Forall (in_grid R C) (line_from d r c).
Proof.
  intros Hfit. split; [by destruct d|]. split.
  - destruct d; simpl in *; repeat split; lia.
  - destruct d; simpl in *; repeat constructor; simpl; lia.
Qed.

Lemma wins_holds (s : board) l :
  wins s l = true <->
  exists p, p <> Empty /\ holds s p l = true /\
            match l with q :: _ => mark_at s q = p | [] => False end.
Proof.
  unfold wins, holds. destruct l as [|q rest].
  - split; [done|]. by intros (p & _ & _ & []).
  - simpl. rewrite andb_true_iff, negb_true_iff, bool_decide_eq_false. split.
    + intros [Hne Hall]. exists (mark_at s q). split; [done|]. split; [|done].
      by rewrite bool_decide_true.
    + intros (p & Hne & Hall & <-). split; [done|].
      by apply andb_true_iff in Hall as [_ Hall].
Qed.

Lemma find_first {A} (t : A -> bool) (l : list A) x :
  List.find t l = Some x ->
  t x = true /\
  exists before after, l = before ++ x :: after /\
                       Forall (fun y => t y = false) before.
Proof.
  induction l as [|a l IH]; simpl; [done|].
  destruct (t a) eqn:Ha.
  - intros [= <-]. split; [done|]. by exists [], l.
  - intros Hx. destruct (IH Hx) as (Ht & before & after & -> & Hb).
    split; [done|]. exists (a :: before), after. split; [done|]. by constructor.
Qed.

Lemma holds_Forall (s : board) p l :
  holds s p l = true <-> Forall (fun q => mark_at s q = p) l.
Proof.
  unfold holds. rewrite forallb_forall, list.Forall_forall.
  split; intros H q Hq.
  - eapply bool_decide_eq_true_1, H. by apply list_elem_of_In.
  - apply bool_decide_eq_true_2, H. by apply list_elem_of_In.
Qed.

(** C4. On a rectangular grid [is_a_winner] returns [None] exactly when no
    line of four wins; otherwise it returns the first winning line of the
    scan order (rows top to bottom and left to right, then columns, then
    diagonals down-right, then diagonals up-right) with its mark: a mark
    other than [Empty] and exactly four positions of the grid, listed
    along the line, consecutive ones adjacent in one of the four
    directions, all holding that mark. *)
Theorem is_a_winner_reports_first_line R C (s : board) :
  rect R C s ->
  is_a_winner s = report s <$> List.find (wins s) (lines R C) /\
  (is_a_winner s = None <-> forall l, In l (lines R C) -> wins s l = false) /\
  (forall mark ps, is_a_winner s = Some (mark, ps) ->
     mark <> Empty /\ length ps = 4 /\
     (exists d, straight d ps) /\
     Forall (in_grid R C) ps /\
     Forall (fun q => mark_at s q = mark) ps /\
     exists before after,
       lines R C = before ++ ps :: after /\
       Forall (fun l => wins s l = false) before).
Proof.
  intros Hs. pose proof Hs as (HR & Hlen & _).
  pose proof (is_a_winner_find s) as Hfind.
  rewrite Hlen, (rect_columns R C s Hs) in Hfind.
  split; [done|]. rewrite Hfind. split.
  - split.
    + intros Hnone. apply find_none.
      by destruct (List.find (wins s) (lines R C)).
    + intros Hall. destruct (List.find (wins s) (lines R C)) as [l|] eqn:Hl; [|done].
      apply find_some in Hl as [Hin Hw]. rewrite (Hall l Hin) in Hw. done.
  - intros mark ps Hres.
    destruct (List.find (wins s) (lines R C)) as [l|] eqn:Hl; [|done].
    simpl in Hres. injection Hres as Hmark ->.
    pose proof (find_some _ _ Hl) as [Hin _].
    apply find_first in Hl as (Hw & before & after & Hsplit & Hbefore).
    apply in_lines in Hin as (d & r & c & Hfit & ->).
    destruct (line_from_shape R C d r c Hfit) as (Hlen4 & Hstraight & Hgrid).
    apply wins_holds in Hw as (p & Hp & Hholds & Hfirst).
    assert (mark = p) as ->.
    { rewrite <- Hmark. by destruct d. }
    split; [done|]. split; [done|]. split; [by exists d|]. split; [done|].
    split; [by apply holds_Forall|]. by exists before, after.
Qed.

Lemma is_a_winner_reports_first_line_witness :
  is_a_winner midgame = report midgame <$> List.find (wins midgame) (lines 6 7) /\
  (is_a_winner midgame = None <->
   forall l, In l (lines 6 7) -> wins midgame l = false) /\
  (forall mark ps, is_a_winner midgame = Some (mark, ps) ->
     mark <> Empty /\ length ps = 4 /\
     (exists d, straight d ps) /\
     Forall (in_grid 6 7) ps /\
     Forall (fun q => mark_at midgame q = mark) ps /\
     exists before after,
       lines 6 7 = before ++ ps :: after /\
       Forall (fun l => wins midgame l = false) before).
Proof.
  apply (is_a_winner_reports_first_line 6 7 midgame). rect_by_computation.
Defined.

(** ** The win test of the search *)

Lemma all_eq_line4 p (f : nat -> cell) :
  all_eq p (line4 f) = true <-> f 0 = p /\ f 1 = p /\ f 2 = p /\ f 3 = p.
Proof.
  unfold all_eq, line4, range. simpl.
  rewrite !andb_true_iff, !bool_decide_eq_true. tauto.
Qed.

(** A slice of four cells of row [r], read through [cell_at]. *)
Lemma slice4_line4 (s : board) r row col :
  s !! r = Some row -> col + 3 < length row ->
  slice4 row col = line4 (fun i => cell_at s r (col + i)).
Proof.
  intros Hrow Hlen. unfold slice4, line4, range, cell_at. rewrite Hrow. simpl.
  assert (Hd : forall i, drop col row !! i = row !! (col + i))
    by (intros i; apply lookup_drop).
  assert (Hl : length (drop col row) = length row - col) by apply length_drop.
  destruct (drop col row) as [|x0 [|x1 [|x2 [|x3 rest]]]]; simpl in Hl; try lia.
  rewrite <- !Hd. reflexivity.
Qed.

Lemma holds_line_from (s : board) p d r c :
  holds s p (line_from d r c) = true <->
  match d with
  | Horizontal =>
      cell_at s r c = p /\ cell_at s r (c + 1) = p /\
      cell_at s r (c + 2) = p /\ cell_at s r (c + 3) = p
  | Vertical =>
      cell_at s r c = p /\ cell_at s (r + 1) c = p /\
      cell_at s (r + 2) c = p /\ cell_at s (r + 3) c = p
  | DownRight =>
      cell_at s r c = p /\ cell_at s (r + 1) (c + 1) = p /\
      cell_at s (r + 2) (c + 2) = p /\ cell_at s (r + 3) (c + 3) = p
  | UpRight =>
      cell_at s r c = p /\ cell_at s (r - 1) (c + 1) = p /\
      cell_at s (r - 2) (c + 2) = p /\ cell_at s (r - 3) (c + 3) = p
  end.
Proof.
  unfold holds, mark_at.
  destruct d; simpl; rewrite !andb_true_iff, !bool_decide_eq_true; tauto.
Qed.

(** [is_winner] holds exactly when some line of the grid is filled with
    the player's mark. *)
Lemma is_winner_iff R C (s : board) p :
  rect R C s ->
  is_winner s p = true <->
  exists d r c, fits R C d r c /\ holds s p (line_from d r c) = true.
Proof.
  intros Hs. pose proof Hs as (HR & Hlen & Hall).
  unfold is_winner. rewrite (rect_columns R C s Hs), Hlen, !orb_true_iff.
  split.
  - intros [[[H|H]|H]|H].
    + apply existsb_exists in H as (row & Hin & H).
      apply existsb_exists in H as (col & Hcol & H). apply In_range in Hcol.
      apply list_elem_of_In, list_elem_of_lookup in Hin as [r Hrow].
      pose proof (Forall_lookup_1 _ _ _ _ Hall Hrow) as Hlr. simpl in Hlr.
      pose proof (lookup_lt_Some _ _ _ Hrow) as Hr.
      rewrite (slice4_line4 s r row col Hrow) in H by lia.
      apply all_eq_line4 in H as (H0 & H1 & H2 & H3).
      exists Horizontal, r, col. split; [simpl; lia|].
      apply holds_line_from. repeat split; same_cell.
    + apply existsb_exists in H as (col & Hcol & H). apply In_range in Hcol.
      apply existsb_exists in H as (row & Hrow & H). apply In_range in Hrow.
      apply all_eq_line4 in H as (H0 & H1 & H2 & H3).
      exists Vertical, row, col. split; [simpl; lia|].
      apply holds_line_from. repeat split; same_cell.
    + apply existsb_exists in H as (row & Hrow & H). apply In_range in Hrow.
      apply existsb_exists in H as (col & Hcol & H). apply In_range in Hcol.
      apply all_eq_line4 in H as (H0 & H1 & H2 & H3).
      exists DownRight, row, col. split; [simpl; lia|].
      apply holds_line_from. repeat split; same_cell.
    + apply existsb_exists in H as (row & Hrow & H). apply In_range in Hrow.
      apply existsb_exists in H as (col & Hcol & H). apply In_range in Hcol.
      apply all_eq_line4 in H as (H0 & H1 & H2 & H3).
      exists UpRight, (row + 3), (col - 3). split; [simpl; lia|].
      apply holds_line_from. repeat split; same_cell.
  - intros (d & r & c & Hfit & Hholds). apply holds_line_from in Hholds.
    destruct d; simpl in Hfit; destruct Hholds as (H0 & H1 & H2 & H3).
    + left; left; left.
      destruct (rect_row R C s r Hs) as (row & Hrow & Hlr); [lia|].
      apply existsb_exists. exists row. split.
      { apply list_elem_of_In. by eapply list_elem_of_lookup_2. }
      apply existsb_exists. exists c. split; [apply In_range; lia|].
      rewrite (slice4_line4 s r row c Hrow) by lia.
      apply all_eq_line4. repeat split; same_cell.
    + left; left; right.
      apply existsb_exists. exists c. split; [apply In_range; lia|].
      apply existsb_exists. exists r. split; [apply In_range; lia|].
      apply all_eq_line4. repeat split; same_cell.
    + left; right.
      apply existsb_exists. exists r. split; [apply In_range; lia|].
      apply existsb_exists. exists c. split; [apply In_range; lia|].
      apply all_eq_line4. repeat split; same_cell.
    + right.
      apply existsb_exists. exists (r - 3). split; [apply In_range; lia|].
      apply existsb_exists. exists (c + 3). split; [apply In_range; lia|].
      apply all_eq_line4. repeat split; same_cell.
Qed.

(** C9. On a rectangular grid the two win detectors agree: [is_a_winner]
    returns a result exactly when [is_winner] holds for ['X'] or for ['O'],
    and the mark it returns is one for which [is_winner] holds. *)
Theorem winner_detectors_agree R C (s : board) :
  rect R C s ->
  (is_a_winner s <> None <-> is_winner s X = true \/ is_winner s O = true) /\
  (forall mark ps, is_a_winner s = Some (mark, ps) ->
     is_winner s mark = true /\ (mark = X \/ mark = O)).
Proof.
  intros Hs. pose proof Hs as (HR & Hlen & _).
  pose proof (is_a_winner_find s) as Hfind.
  rewrite Hlen, (rect_columns R C s Hs) in Hfind.
  assert (Hsome : forall mark ps, is_a_winner s = Some (mark, ps) ->
            is_winner s mark = true /\ (mark = X \/ mark = O)).
  { intros mark ps Hres. rewrite Hfind in Hres.
    destruct (List.find (wins s) (lines R C)) as [l|] eqn:Hl; [|done].
    simpl in Hres. injection Hres as Hmark ->.
    apply find_some in Hl as [Hin Hw].
    apply in_lines in Hin as (d & r & c & Hfit & ->).
    apply wins_holds in Hw as (p & Hp & Hholds & Hfirst).
    assert (mark = p) as -> by (rewrite <- Hmark; by destruct d).
    split; [|by destruct p; auto].
    apply (is_winner_iff R C s p Hs). by exists d, r, c. }
  split; [|done]. split.
  - intros Hne. destruct (is_a_winner s) as [[mark ps]|] eqn:Hres; [|done].
    destruct (Hsome mark ps eq_refl) as [Hw [->| ->]]; auto.
  - intros Hw. rewrite Hfind.
    assert (exists p, p <> Empty /\ is_winner s p = true) as (p & Hp & Hwp).
    { destruct Hw; [by exists X|by exists O]. }
    apply (is_winner_iff R C s p Hs) in Hwp as (d & r & c & Hfit & Hholds).
    assert (Hwins : wins s (line_from d r c) = true).
    { apply wins_holds. exists p. split; [done|]. split; [done|].
      apply holds_line_from in Hholds. by destruct d; destruct Hholds. }
    assert (Hin : In (line_from d r c) (lines R C)).
    { apply in_lines. by exists d, r, c. }
    destruct (List.find (wins s) (lines R C)) as [l|] eqn:Hl; [done|].
    pose proof (find_none _ _ Hl _ Hin) as Hno. simpl in Hno. congruence.
Qed.

(** ** Sums *)

Lemma Zsum_app (l1 l2 : list Z) : Zsum (l1 ++ l2) = (Zsum l1 + Zsum l2)%Z.
Proof. induction l1 as [|x l1 IH]; simpl; [done|]. rewrite IH. lia. Qed.

Lemma Zsum_map_ext {A} (f g : A -> Z) (l : list A) :
  (forall a, In a l -> f a = g a) -> Zsum (map f l) = Zsum (map g l).
Proof.
  induction l as [|a l IH]; simpl; [done|]. intros H.
  rewrite (H a) by auto. rewrite IH; [done|]. intros b Hb. apply H. auto.
Qed.

Lemma Zsum_map_add {A} (f g : A -> Z) (l : list A) :
  Zsum (map (fun a => (f a + g a)%Z) l) = (Zsum (map f l) + Zsum (map g l))%Z.
Proof. induction l as [|a l IH]; simpl; [done|]. rewrite IH. lia. Qed.

Lemma Zsum_map_zero {A} (l : list A) : Zsum (map (fun _ => 0%Z) l) = 0%Z.
Proof. induction l as [|a l IH]; simpl; [done|]. by rewrite IH. Qed.

(** The order of two nested sums does not matter. *)
Lemma Zsum_swap {A B} (f : A -> B -> Z) (la : list A) (lb : list B) :
  Zsum (map (fun a => Zsum (map (f a) lb)) la) =
  Zsum (map (fun b => Zsum (map (fun a => f a b) la)) lb).
Proof.
  induction la as [|a la IH]; simpl.
  - by rewrite Zsum_map_zero.
  - rewrite IH. by rewrite <- Zsum_map_add.
Qed.

(** A sum over the elements of a list is a sum over its indices. *)
Lemma Zsum_map_index {A} (g : A -> Z) (h : nat -> Z) (l : list A) k :
  (forall i x, l !! i = Some x -> g x = h (k + i)) ->
  Zsum (map g l) = Zsum (map h (seq k (length l))).
Proof.
  revert k. induction l as [|a l IH]; intros k H; simpl; [done|].
  rewrite (H 0 a eq_refl), Nat.add_0_r. f_equal. apply IH.
  intros i x Hx. rewrite (H (S i) x Hx). f_equal. lia.
Qed.

Lemma Zsum_map_shift (h : nat -> Z) j n :
  Zsum (map h (seq j n)) = Zsum (map (fun i => h (j + i)) (seq 0 n)).
Proof.
  rewrite <- (Nat.add_0_r j) at 1. rewrite <- fmap_add_seq.
  change (Nat.add j <$> seq 0 n) with (map (Nat.add j) (seq 0 n)).
  by rewrite map_map.
Qed.

Lemma Zsum_family (g : list pos -> Z) d rs cs :
  Zsum (map g (family d rs cs)) =
  Zsum (map (fun r => Zsum (map (fun c => g (line_from d r c)) cs)) rs).
Proof.
  unfold family. induction rs as [|r rs IH]; simpl; [done|].
  by rewrite map_app, Zsum_app, map_map, IH.
Qed.

Lemma for_acc_sum {A} (l : list A) (f : A -> Z) (acc : Z) :
  for_acc l (fun a score => (score + f a)%Z) acc = (acc + Zsum (map f l))%Z.
Proof.
  unfold for_acc. revert acc. induction l as [|a l IH]; intros acc; simpl; [lia|].
  rewrite IH. lia.
Qed.

(** Two nested accumulating loops add up a double sum. *)
Lemma for_acc_sum2 {A B} (la : list A) (lb : A -> list B) (f : A -> B -> Z) acc :
  for_acc la (fun a score =>
    for_acc (lb a) (fun b score => (score + f a b)%Z) score) acc
  = (acc + Zsum (map (fun a => Zsum (map (f a) (lb a))) la))%Z.
Proof.
  revert acc. induction la as [|a la IH]; intros acc.
  - unfold for_acc. simpl. lia.
  - unfold for_acc in *. simpl. rewrite IH.
    pose proof (for_acc_sum (lb a) (f a) acc) as Hin. unfold for_acc in Hin.
    rewrite Hin. lia.
Qed.

(** ** The evaluator *)

(** On a window of four cells the code's chain of tests is the table. *)
Lemma evaluate_window_table (w : list cell) :
  length w = 4 -> evaluate_window w = window_score w.
Proof.
  intros Hlen. destruct w as [|a [|b [|c [|d [|e w]]]]]; try discriminate.
  destruct a, b, c, d; reflexivity.
Qed.

(** A window that holds both marks scores nothing. *)
Lemma window_score_mixed (w : list cell) :
  length w = 4 -> In X w -> In O w -> window_score w = 0%Z.
Proof.
  intros Hlen. destruct w as [|a [|b [|c [|d [|e w]]]]]; try discriminate.
  simpl. destruct a, b, c, d; intros HX HO; try reflexivity;
    exfalso; intuition discriminate.
Qed.

Lemma window_score_rev4 a b c d :
  window_score [a; b; c; d] = window_score [d; c; b; a].
Proof. destruct a, b, c, d; reflexivity. Qed.

Lemma line4_cells (f : nat -> cell) : line4 f = [f 0; f 1; f 2; f 3].
Proof. reflexivity. Qed.

(** C6. On a rectangular grid the evaluator's score is the sum, over every
    run of four cells in a row, a column or either diagonal direction, of
    the window's score by the table: four ['O'] 100, three ['O'] and one
    ['.'] 5, two ['O'] and two ['.'] 2, the same for ['X'] with a minus
    sign, anything else 0; the code's chain of tests gives the table's
    score on every window of four, and a window with both marks scores 0. *)
Theorem evaluate_is_sum_of_window_scores R C (s : board) :
  rect R C s ->
  evaluate s = Zsum (map (fun l => window_score (map (mark_at s) l)) (lines R C)) /\
  (forall w, length w = 4 -> evaluate_window w = window_score w) /\
  (forall w, length w = 4 -> In X w -> In O w -> window_score w = 0%Z).
Proof.
  intros Hs. pose proof Hs as (HR & Hlen & Hall).
  split; [|split; [apply evaluate_window_table | apply window_score_mixed]].
  unfold evaluate. cbv zeta. rewrite !for_acc_sum2.
  unfold lines. rewrite !map_app, !Zsum_app, !Zsum_family.
  rewrite (rect_columns R C s Hs), Hlen.
  assert (Hrows :
    Zsum (map (fun row => Zsum (map (fun col => evaluate_window (slice4 row col))
                                    (range 0 (length row - 3)))) s) =
    Zsum (map (fun r => Zsum (map (fun c =>
            window_score (map (mark_at s) (line_from Horizontal r c)))
            (range 0 (C - 3)))) (range 0 R))).
  { unfold range at 3. rewrite Nat.sub_0_r, <- Hlen.
    apply Zsum_map_index. intros r row Hrow. simpl.
    pose proof (Forall_lookup_1 _ _ _ _ Hall Hrow) as Hlr. simpl in Hlr.
    rewrite Hlr. apply Zsum_map_ext. intros c Hc. apply In_range in Hc.
    rewrite (slice4_line4 s r row c Hrow) by lia.
    rewrite evaluate_window_table by done.
    rewrite line4_cells, Nat.add_0_r. reflexivity. }
  assert (Hcols :
    Zsum (map (fun col => Zsum (map (fun row =>
            evaluate_window (line4 (fun i => cell_at s (row + i) col)))
            (range 0 (R - 3)))) (range 0 C)) =
    Zsum (map (fun r => Zsum (map (fun c =>
            window_score (map (mark_at s) (line_from Vertical r c)))
            (range 0 C))) (range 0 (R - 3)))).
  { rewrite Zsum_swap. apply Zsum_map_ext. intros r _.
    apply Zsum_map_ext. intros c _.
    rewrite evaluate_window_table by done.
    rewrite line4_cells, Nat.add_0_r. reflexivity. }
  assert (Hd1 :
    Zsum (map (fun row => Zsum (map (fun col =>
            evaluate_window (line4 (fun i => cell_at s (row + i) (col + i))))
            (range 0 (C - 3)))) (range 0 (R - 3))) =
    Zsum (map (fun r => Zsum (map (fun c =>
            window_score (map (mark_at s) (line_from DownRight r c)))
            (range 0 (C - 3)))) (range 0 (R - 3)))).
  { apply Zsum_map_ext. intros r _. apply Zsum_map_ext. intros c _.
    rewrite evaluate_window_table by done.
    rewrite line4_cells, !Nat.add_0_r. reflexivity. }
  assert (Hd2 :
    Zsum (map (fun row => Zsum (map (fun col =>
            evaluate_window (line4 (fun i => cell_at s (row + i) (col - i))))
            (range 3 C))) (range 0 (R - 3))) =
    Zsum (map (fun r => Zsum (map (fun c =>
            window_score (map (mark_at s) (line_from UpRight r c)))
            (range 0 (C - 3)))) (range 3 R))).
  { unfold range. rewrite !Nat.sub_0_r.
    rewrite (Zsum_map_shift _ 3 (R - 3)).
    apply Zsum_map_ext. intros r _.
    rewrite (Zsum_map_shift _ 3 (C - 3)).
    apply Zsum_map_ext. intros c _.
    rewrite evaluate_window_table by done.
    rewrite line4_cells, window_score_rev4. simpl. unfold mark_at. simpl.
    repeat (f_equal; try lia). }
  rewrite Hrows, Hcols, Hd1, Hd2. lia.
Qed.

(** ** Extended integers *)

Lemma ext_le_refl a : ext_le a a.
Proof. ext_cases. Qed.

Lemma ext_le_trans a b c : ext_le a b -> ext_le b c -> ext_le a c.
Proof. intros. ext_cases. Qed.

Lemma ext_max_cases a b :
  ext_le a (ext_max a b) /\ ext_le b (ext_max a b) /\
  (ext_max a b = a \/ ext_max a b = b).
Proof. ext_cases; auto. Qed.

Lemma ext_min_cases a b :
  ext_le (ext_min a b) a /\ ext_le (ext_min a b) b /\
  (ext_min a b = a \/ ext_min a b = b).
Proof. ext_cases; auto. Qed.

Lemma ext_le_NegInf a : ext_le a NegInf -> a = NegInf.
Proof. intros. ext_cases. Qed.

Lemma ext_le_PosInf a : ext_le PosInf a -> a = PosInf.
Proof. intros. ext_cases. Qed.

(** What a loop of [max] leaves in its accumulator. *)
Lemma fold_max_bounds (vs : list ext) a :
  ext_le a (fold_left ext_max vs a) /\
  Forall (fun v => ext_le v (fold_left ext_max vs a)) vs /\
  (fold_left ext_max vs a = a \/ fold_left ext_max vs a ∈ vs).
Proof.
  revert a. induction vs as [|v vs IH]; intros a; simpl.
  - split; [apply ext_le_refl|]. split; [constructor|by left].
  - destruct (IH (ext_max a v)) as (Hle & Hall & Hin).
    destruct (ext_max_cases a v) as (Ha & Hv & Hor).
    split; [by eapply ext_le_trans|]. split.
    + constructor; [by eapply ext_le_trans|done].
    + destruct Hin as [Heq|Hin].
      * rewrite Heq. destruct Hor as [->| ->]; [by left|right; by left].
      * right. by right.
Qed.

Lemma fold_min_bounds (vs : list ext) a :
  ext_le (fold_left ext_min vs a) a /\
  Forall (fun v => ext_le (fold_left ext_min vs a) v) vs /\
  (fold_left ext_min vs a = a \/ fold_left ext_min vs a ∈ vs).
Proof.
  revert a. induction vs as [|v vs IH]; intros a; simpl.
  - split; [apply ext_le_refl|]. split; [constructor|by left].
  - destruct (IH (ext_min a v)) as (Hle & Hall & Hin).
    destruct (ext_min_cases a v) as (Ha & Hv & Hor).
    split; [by eapply ext_le_trans|]. split.
    + constructor; [by eapply ext_le_trans|done].
    + destruct Hin as [Heq|Hin].
      * rewrite Heq. destruct Hor as [->| ->]; [by left|right; by left].
      * right. by right.
Qed.

Lemma fold_max_is_maximum (vs : list ext) :
  is_maximum (fold_left ext_max vs NegInf) vs.
Proof.
  destruct (fold_max_bounds vs NegInf) as (_ & Hall & Hin).
  split; [done|]. split; [by intros ->|]. intros Hne.
  destruct Hin as [Heq|Hin]; [|done].
  destruct vs as [|v vs]; [done|]. rewrite Heq in *.
  inversion Hall as [|? ? Hv _]; subst. apply ext_le_NegInf in Hv as ->. by left.
Qed.

Lemma fold_min_is_minimum (vs : list ext) :
  is_minimum (fold_left ext_min vs PosInf) vs.
Proof.
  destruct (fold_min_bounds vs PosInf) as (_ & Hall & Hin).
  split; [done|]. split; [by intros ->|]. intros Hne.
  destruct Hin as [Heq|Hin]; [|done].
  destruct vs as [|v vs]; [done|]. rewrite Heq in *.
  inversion Hall as [|? ? Hv _]; subst. apply ext_le_PosInf in Hv as ->. by left.
Qed.

(** ** The search *)

(** The loop of [minimax] folds the children's values. *)
Lemma search_loop (step : ext -> ext -> ext) s d mark flag moves vs acc :
  children_values s d mark flag moves vs ->
  for_acc moves (fun move acc =>
    best ← acc;
    child_state ← make_move s move mark;
    eval ← minimax child_state d flag;
    Ok (step best eval)) (Ok acc)
  = Ok (fold_left step vs acc).
Proof.
  intros Hvs. revert acc. unfold for_acc.
  induction Hvs as [|move v moves vs (child & Hm & Hv) _ IH]; intros acc; simpl;
    [done|].
  rewrite Hm. simpl. rewrite Hv. simpl. apply IH.
Qed.

Lemma children_values_exist R C (s : board) d mark flag moves :
  rect R C s ->
  (forall child, rect R C child -> exists v, minimax child d flag = Ok v) ->
  Forall (fun move => move < C) moves ->
  exists vs, children_values s d mark flag moves vs.
Proof.
  intros Hs Hrec Hmoves. induction Hmoves as [|move moves Hmove _ [vs IH]].
  - exists []. constructor.
  - destruct (make_move_returns R C s move mark Hs Hmove) as (child & Hm & Hc).
    destruct (Hrec child Hc) as [v Hv].
    exists (v :: vs). constructor; [|done]. by exists child.
Qed.

Lemma possible_moves_in_grid R C (s : board) :
  rect R C s -> Forall (fun move => move < C) (get_possible_moves s).
Proof.
  intros Hs. apply list.Forall_forall. intros move Hin.
  by apply (get_possible_moves_legal R C s move Hs) in Hin as [? _].
Qed.

(** One level of [minimax] below a position that is not terminal. *)
Lemma minimax_step (s : board) d (maximizing : bool) vs :
  is_terminal s = false ->
  children_values s d (if maximizing then O else X) (negb maximizing)
                  (get_possible_moves s) vs ->
  minimax s (S d) maximizing =
  Ok (if maximizing then fold_left ext_max vs NegInf
      else fold_left ext_min vs PosInf).
Proof.
  intros Hterm Hvs. simpl. rewrite Hterm. destruct maximizing; simpl in Hvs.
  - by apply (search_loop ext_max).
  - by apply (search_loop ext_min).
Qed.

(** On a rectangular grid the search returns a value. *)
Lemma minimax_returns R C d :
  forall (s : board) maximizing,
    rect R C s -> exists v, minimax s d maximizing = Ok v.
Proof.
  induction d as [|d IH]; intros s maximizing Hs.
  - by eexists.
  - destruct (is_terminal s) eqn:Hterm.
    + simpl. rewrite Hterm. by eexists.
    + destruct (children_values_exist R C s d (if maximizing then O else X)
                  (negb maximizing) (get_possible_moves s) Hs) as [vs Hvs].
      * intros child Hc. by apply IH.
      * by apply (possible_moves_in_grid R C).
      * rewrite (minimax_step s d maximizing vs Hterm Hvs). by eexists.
Qed.

(** C7. On a rectangular grid [minimax] returns exactly [evaluate(state)]
    when the depth is 0 or the state is terminal, with no special value
    for a decided game; otherwise it takes every legal column in turn,
    applies ['O'] (maximizing) or ['X'] (minimizing), searches the child
    one level less deep with the flag flipped, and returns the maximum,
    respectively the minimum, of the values of all the children. *)
Theorem minimax_is_full_width_search R C (s : board) depth (maximizing : bool) :
  rect R C s ->
  minimax s 0 maximizing = Ok (Fin (evaluate s)) /\
  (is_terminal s = true ->
   minimax s depth maximizing = Ok (Fin (evaluate s))) /\
  (is_terminal s = false ->
   exists vs best,
     children_values s depth (if maximizing then O else X) (negb maximizing)
                     (get_possible_moves s) vs /\
     (forall col, col ∈ get_possible_moves s <-> legal C s col) /\
     minimax s (S depth) maximizing = Ok best /\
     (if maximizing then is_maximum best vs else is_minimum best vs)).
Proof.
  intros Hs. split; [done|]. split.
  - intros Hterm. destruct depth as [|d]; [done|]. simpl. by rewrite Hterm.
  - intros Hterm.
    destruct (children_values_exist R C s depth (if maximizing then O else X)
                (negb maximizing) (get_possible_moves s) Hs) as [vs Hvs].
    + intros child Hc. by apply (minimax_returns R C).
    + by apply (possible_moves_in_grid R C).
    + exists vs. eexists. split; [done|]. split.
      { intros col. by apply (get_possible_moves_legal R C). }
      split; [by apply minimax_step|].
      destruct maximizing; [apply fold_max_is_maximum|apply fold_min_is_minimum].
Qed.

Lemma minimax_is_full_width_search_witness :
  minimax midgame 0 true = Ok (Fin (evaluate midgame)) /\
  (is_terminal midgame = true ->
   minimax midgame 2 true = Ok (Fin (evaluate midgame))) /\
  (is_terminal midgame = false ->
   exists vs best,
     children_values midgame 2 O false (get_possible_moves midgame) vs /\
     (forall col, col ∈ get_possible_moves midgame <-> legal 7 midgame col) /\
     minimax midgame 3 true = Ok best /\
     is_maximum best vs).
Proof.
  apply (minimax_is_full_width_search 6 7 midgame 2 true). rect_by_computation.
Defined.

(** ** Move selection *)

Lemma forallb_false_lookup {A} (f : A -> bool) (l : list A) :
  forallb f l = false -> exists i x, l !! i = Some x /\ f x = false.
Proof.
  induction l as [|a l IH]; simpl; [done|].
  destruct (f a) eqn:Ha; simpl.
  - intros H. destruct (IH H) as (i & x & Hx & Hf). by exists (S i), x.
  - intros _. by exists 0, a.
Qed.

(** Under gravity a grid that is not full has a legal column. *)
Lemma not_full_has_legal R C (s : board) :
  rect R C s -> gravity s = true -> board_full s = false ->
  exists col, legal C s col.
Proof.
  intros Hs Hg Hfull. pose proof Hs as (HR & Hlen & Hall).
  apply forallb_false_lookup in Hfull as (r & row & Hrow & Hfull).
  apply forallb_false_lookup in Hfull as (c & x & Hx & Hempty).
  apply negb_false_iff, bool_decide_eq_true in Hempty. subst x.
  pose proof (Forall_lookup_1 _ _ _ _ Hall Hrow) as Hlr. simpl in Hlr.
  pose proof (lookup_lt_Some _ _ _ Hrow) as Hr.
  pose proof (lookup_lt_Some _ _ _ Hx) as Hc.
  assert (Hcell : cell_at s r c = Empty) by (unfold cell_at; by rewrite Hrow, Hx).
  exists c. split; [lia|].
  destruct (decide (cell_at s 0 c = Empty)) as [|Hocc]; [done|].
  exfalso. apply (gravity_below R C s c 0 r Hs Hg); [lia|lia|lia|done|done].
Qed.

Lemma not_terminal_not_full (s : board) :
  is_terminal s = false -> board_full s = false.
Proof.
  unfold is_terminal. by destruct (is_winner s O || is_winner s X).
Qed.

Lemma fold_max_Fin (zs : list Z) a :
  exists z, fold_left ext_max (map Fin zs) (Fin a) = Fin z.
Proof.
  revert a. induction zs as [|z zs IH]; intros a; simpl; [by eexists|].
  unfold ext_max at 2. simpl. destruct (a <? z)%Z; apply IH.
Qed.

Lemma fold_min_Fin (zs : list Z) a :
  exists z, fold_left ext_min (map Fin zs) (Fin a) = Fin z.
Proof.
  revert a. induction zs as [|z zs IH]; intros a; simpl; [by eexists|].
  unfold ext_min at 2. simpl. destruct (z <? a)%Z; apply IH.
Qed.

Lemma children_values_finite R C (s : board) d mark flag moves :
  rect R C s -> gravity s = true -> mark <> Empty ->
  (forall child, rect R C child -> gravity child = true ->
                 exists z, minimax child d flag = Ok (Fin z)) ->
  Forall (legal C s) moves ->
  exists zs, children_values s d mark flag moves (map Fin zs).
Proof.
  intros Hs Hg Hmark Hrec Hmoves.
  induction Hmoves as [|move moves Hmove _ [zs IH]].
  - exists []. constructor.
  - destruct (make_move_legal R C s move mark Hs Hmove)
      as (child & r & Hm & Hc & _).
    pose proof (gravity_make_move R C s child move mark Hs Hg Hmove Hmark Hm) as Hgc.
    destruct (Hrec child Hc Hgc) as [z Hz].
    exists (z :: zs). constructor; [|done]. by exists child.
Qed.

Lemma possible_moves_legal R C (s : board) :
  rect R C s -> Forall (legal C s) (get_possible_moves s).
Proof.
  intros Hs. apply list.Forall_forall. intros move Hin.
  by apply (get_possible_moves_legal R C s move Hs).
Qed.

(** On a grid that obeys gravity the search returns an integer, never an
    infinity. *)
Lemma minimax_finite R C d :
  forall (s : board) (maximizing : bool),
    rect R C s -> gravity s = true ->
    exists z, minimax s d maximizing = Ok (Fin z).
Proof.
  induction d as [|d IH]; intros s maximizing Hs Hg.
  - by eexists.
  - destruct (is_terminal s) eqn:Hterm.
    + simpl. rewrite Hterm. by eexists.
    + destruct (children_values_finite R C s d (if maximizing then O else X)
                  (negb maximizing) (get_possible_moves s) Hs Hg) as [zs Hzs].
      * by destruct maximizing.
      * intros child Hc Hgc. by apply IH.
      * by apply (possible_moves_legal R C).
      * rewrite (minimax_step s d maximizing _ Hterm Hzs).
        destruct (not_full_has_legal R C s Hs Hg (not_terminal_not_full s Hterm))
          as [col Hcol].
        apply (get_possible_moves_legal R C s col Hs) in Hcol.
        destruct zs as [|z zs].
        { apply Forall2_nil_inv_r in Hzs. rewrite Hzs in Hcol.
          by apply not_elem_of_nil in Hcol. }
        destruct maximizing; simpl.
        -- destruct (fold_max_Fin zs z) as [z' Hz']. exists z'. by rewrite <- Hz'.
        -- destruct (fold_min_Fin zs z) as [z' Hz']. exists z'. by rewrite <- Hz'.
Qed.

Lemma for_acc_snoc {A S} (l : list A) (a : A) (body : A -> S -> S) (acc : S) :
  for_acc (l ++ [a]) body acc = body a (for_acc l body acc).
Proof. unfold for_acc. by rewrite fold_left_app. Qed.

(** The columns [get_possible_moves] lists are in ascending order. *)
Lemma filter_seq_split (f : nat -> bool) a n l1 m l2 :
  List.filter f (seq a n) = l1 ++ m :: l2 ->
  Forall (fun x => x < m) l1 /\ Forall (fun x => m < x) l2.
Proof.
  revert a l1. induction n as [|n IH]; intros a l1; simpl.
  - by destruct l1.
  - assert (Hge : forall l1' l2', List.filter f (seq (S a) n) = l1' ++ m :: l2' ->
                                  a < m).
    { intros l1' l2' H.
      assert (Hin : In m (List.filter f (seq (S a) n))).
      { rewrite H. apply in_app_iff. right. by left. }
      apply filter_In in Hin as [Hin _]. apply in_seq in Hin. lia. }
    destruct (f a).
    + destruct l1 as [|x l1]; simpl; intros [= <- H].
      * split; [constructor|]. apply list.Forall_forall. intros x Hx.
        assert (Hin : In x (List.filter f (seq (S a) n))).
        { rewrite H. by apply list_elem_of_In. }
        apply filter_In in Hin as [Hin _]. apply in_seq in Hin. lia.
      * destruct (IH _ _ H) as [H1 H2]. split; [|done].
        constructor; [|done]. by apply (Hge l1 l2).
    + apply IH.
Qed.

(** The loop of [find_best_move] when every move has an integer score
    [sc]: it keeps the first move whose score is the greatest. *)
Lemma best_loop depth (s : board) (sc : nat -> Z) moves :
  (forall m, In m moves -> move_score depth s m = Ok (Fin (sc m))) ->
  let loop :=
    for_acc moves (fun move acc =>
      '(best_score, best_move) ← acc;
      score ← move_score depth s move;
      if ext_ltb best_score score then Ok (score, Some move)
      else Ok (best_score, best_move)) (Ok (NegInf, None)) in
  (moves = [] /\ loop = Ok (NegInf, None))
  \/ (exists l1 m l2,
        moves = l1 ++ m :: l2 /\ loop = Ok (Fin (sc m), Some m) /\
        Forall (fun m' => (sc m' < sc m)%Z) l1 /\
        Forall (fun m' => (sc m' <= sc m)%Z) l2).
Proof.
  induction moves as [|x l IH] using rev_ind; intros Hsc; simpl.
  - by left.
  - right. rewrite for_acc_snoc.
    assert (Hx : move_score depth s x = Ok (Fin (sc x))).
    { apply Hsc, in_app_iff. right. by left. }
    destruct IH as [[-> Hloop]|(l1 & m & l2 & -> & Hloop & H1 & H2)].
    { intros m Hm. apply Hsc, in_app_iff. by left. }
    + simpl in *. rewrite Hx. simpl.
      exists [], x, []. by repeat split.
    + simpl in Hloop. rewrite Hloop. simpl. rewrite Hx. simpl.
      destruct (Z.ltb_spec (sc m) (sc x)) as [Hlt|Hge].
      * exists (l1 ++ m :: l2), x, []. split; [done|]. split; [done|].
        split; [|constructor]. apply Forall_app. split.
        -- eapply Forall_impl; [|exact H1]. simpl. intros; lia.
        -- constructor; [done|]. eapply Forall_impl; [|exact H2]. simpl. intros; lia.
      * exists l1, m, (l2 ++ [x]). split; [by rewrite <- app_assoc|].
        split; [done|]. split; [done|]. apply Forall_app. split; [done|].
        by constructor.
Qed.

(** On a grid that obeys gravity every legal move has an integer score. *)
Lemma move_score_finite R C depth (s : board) col :
  rect R C s -> gravity s = true -> legal C s col ->
  exists z, move_score depth s col = Ok (Fin z).
Proof.
  intros Hs Hg Hcol.
  destruct (make_move_legal R C s col O Hs Hcol) as (child & r & Hm & Hc & _).
  assert (Hgc : gravity child = true)
    by (by apply (gravity_make_move R C s child col O)).
  destruct (minimax_finite R C depth child false Hc Hgc) as [z Hz].
  exists z. unfold move_score. rewrite Hm. done.
Qed.

(** [find_best_move] keeps the leftmost of the best legal columns. *)
Lemma find_best_move_spec R C (s : board) depth :
  rect R C s -> gravity s = true -> (exists col, legal C s col) ->
  exists best v,
    find_best_move depth s = Ok (Some best) /\
    legal C s best /\
    move_score depth s best = Ok (Fin v) /\
    (forall col, legal C s col ->
       exists w, move_score depth s col = Ok (Fin w) /\
                 (w <= v)%Z /\ (col < best -> (w < v)%Z)).
Proof.
  intros Hs Hg [col0 Hcol0].
  set (sc := fun m => match move_score depth s m with
                      | Ok (Fin z) => z
                      | _ => 0%Z
                      end).
  assert (Hsc : forall m, legal C s m -> move_score depth s m = Ok (Fin (sc m))).
  { intros m Hm. destruct (move_score_finite R C depth s m Hs Hg Hm) as [z Hz].
    unfold sc. by rewrite Hz. }
  assert (Hlegal : forall m, In m (get_possible_moves s) <-> legal C s m).
  { intros m. rewrite <- list_elem_of_In.
    by apply (get_possible_moves_legal R C). }
  destruct (best_loop depth s sc (get_possible_moves s))
    as [[Hnil _]|(l1 & m & l2 & Hsplit & Hloop & H1 & H2)].
  { intros m Hm. by apply Hsc, Hlegal. }
  { apply Hlegal in Hcol0. rewrite Hnil in Hcol0. done. }
  pose proof Hsplit as Hsorted. unfold get_possible_moves, range in Hsorted.
  apply filter_seq_split in Hsorted as [Hleft Hright].
  assert (Hm : legal C s m).
  { apply Hlegal. rewrite Hsplit. apply in_app_iff. right. by left. }
  exists m, (sc m). split; [|split; [done|split; [by apply Hsc|]]].
  - unfold find_best_move. simpl in Hloop. rewrite Hloop. done.
  - intros col Hcol. exists (sc col). split; [by apply Hsc|].
    apply Hlegal in Hcol. rewrite Hsplit in Hcol.
    apply in_app_iff in Hcol as [Hin|[<-|Hin]].
    + apply list_elem_of_In in Hin.
      rewrite list.Forall_forall in H1. specialize (H1 col Hin). simpl in H1. lia.
    + lia.
    + apply list_elem_of_In in Hin.
      rewrite list.Forall_forall in H2, Hright.
      specialize (H2 col Hin). specialize (Hright col Hin). simpl in *. lia.
Qed.




(** ** Start-up *)

(** C8. [validate] starts the game exactly on a valid configuration: the
    opponent type is "human" or "computer", the row count reads as an
    integer in [4, 8], the column count as one in [4, 16], and the first
    mover fits the opponent type.  On every other configuration it prints
    a message (one of its five, or that of the [ValueError]) and does
    not start the game. *)
Theorem validate_starts_exactly_valid (int : string -> Z + string)
    (opponent_type row_size column_size first_player : string) :
  (valid_configuration int opponent_type row_size column_size first_player ->
   exists rows cols,
     int row_size = inl rows /\ int column_size = inl cols /\
     validate int opponent_type row_size column_size first_player =
     FourInROW_game opponent_type rows cols first_player) /\
  (~ valid_configuration int opponent_type row_size column_size first_player ->
   exists message,
     validate int opponent_type row_size column_size first_player =
     Printed message /\
     (In message error_messages \/ int row_size = inr message \/
      int column_size = inr message)).
Proof.
  unfold valid_configuration, validate, validate_checks, error_messages. split.
  - intros (Hopp & (rows & Hr & Hrows) & (cols & Hc & Hcols) & Hhuman & Hcomputer).
    exists rows, cols. split; [done|]. split; [done|]. rewrite Hr, Hc.
    destruct (Z.ltb_spec rows 4) as [?|_]; [lia|].
    destruct (Z.gtb_spec rows 8) as [?|_]; [lia|].
    destruct (Z.ltb_spec cols 4) as [?|_]; [lia|].
    destruct (Z.gtb_spec cols 16) as [?|_]; [lia|]. simpl.
    destruct Hopp as [->| ->]; simpl.
    + destruct (Hhuman eq_refl) as [->| ->]; reflexivity.
    + destruct (Hcomputer eq_refl) as [->| ->]; reflexivity.
  - intros Hinvalid.
    destruct (decide (opponent_type = "human")) as [Hh|Hh];
      destruct (decide (opponent_type = "computer")) as [Hc|Hc];
      try (subst; discriminate).
    + (* against a human *)
      rewrite (bool_decide_true _ Hh), (bool_decide_false _ Hc). simpl.
      destruct (int row_size) as [rows|er] eqn:Hr; [|eexists; split; [done|auto]].
      destruct (Z.ltb_spec rows 4); simpl;
        [eexists; split; [done|left; simpl; auto]|].
      destruct (Z.gtb_spec rows 8); simpl;
        [eexists; split; [done|left; simpl; auto]|].
      destruct (int column_size) as [cols|ec] eqn:Hcs; [|eexists; split; [done|auto]].
      destruct (Z.ltb_spec cols 4); simpl;
        [eexists; split; [done|left; simpl; auto]|].
      destruct (Z.gtb_spec cols 16); simpl;
        [eexists; split; [done|left; simpl; auto]|].
      destruct (decide (first_player = "player1")) as [Hp1|Hp1];
        destruct (decide (first_player = "player2")) as [Hp2|Hp2];
        try (rewrite ?(bool_decide_false _ Hp1), ?(bool_decide_false _ Hp2); simpl;
             eexists; split; [done|left; simpl; tauto]);
        exfalso; apply Hinvalid; (split; [by left|]);
        (split; [exists rows; split; [done|lia]|]);
        (split; [exists cols; split; [done|lia]|]);
        (split; [auto|intros ->; discriminate]).
    + (* against the computer *)
      rewrite (bool_decide_false _ Hh), (bool_decide_true _ Hc). simpl.
      destruct (int row_size) as [rows|er] eqn:Hr; [|eexists; split; [done|auto]].
      destruct (Z.ltb_spec rows 4); simpl;
        [eexists; split; [done|left; simpl; auto]|].
      destruct (Z.gtb_spec rows 8); simpl;
        [eexists; split; [done|left; simpl; auto]|].
      destruct (int column_size) as [cols|ec] eqn:Hcs; [|eexists; split; [done|auto]].
      destruct (Z.ltb_spec cols 4); simpl;
        [eexists; split; [done|left; simpl; auto]|].
      destruct (Z.gtb_spec cols 16); simpl;
        [eexists; split; [done|left; simpl; auto]|].
      destruct (decide (first_player = "computer")) as [Hp1|Hp1];
        destruct (decide (first_player = "human")) as [Hp2|Hp2];
        try (rewrite ?(bool_decide_false _ Hp1), ?(bool_decide_false _ Hp2); simpl;
             eexists; split; [done|left; simpl; tauto]);
        exfalso; apply Hinvalid; (split; [by right|]);
        (split; [exists rows; split; [done|lia]|]);
        (split; [exists cols; split; [done|lia]|]);
        (split; [intros ->; discriminate|auto]).
    + (* neither *)
      rewrite (bool_decide_false _ Hh), (bool_decide_false _ Hc). simpl.
      eexists. split; [done|]. left. simpl. auto.
Qed.

(** ** The computer's turn *)

Lemma lowest_loop (s : board) col r n :
  r < n -> cell_at s r col = Empty ->
  (forall r', r < r' < n -> cell_at s r' col <> Empty) ->
  for_acc (seq 0 n) (fun i line =>
    if bool_decide (cell_at s i col = Empty) then i else line) 0 = r.
Proof.
  induction n as [|n IH]; intros Hr He Hbelow; [lia|].
  rewrite seq_S, for_acc_snoc. simpl.
  destruct (decide (r = n)) as [->|Hne].
  - by rewrite bool_decide_true.
  - rewrite bool_decide_false by (apply Hbelow; lia).
    apply IH; [lia|done|]. intros r' Hr'. apply Hbelow. lia.
Qed.

(** The controller drops the computer's piece where [make_move] does. *)
Lemma execute_ai_move_is_make_move R C (g : GAME_AI) col :
  rows_number g = R -> rect R C (state g) -> legal C (state g) col ->
  exists child,
    make_move (state g) col O = Ok child /\
    execute_ai_move g (Some col) = Ok (set_state g child).
Proof.
  intros Hrows Hs [Hcol Htop]. pose proof Hs as (HR & Hlen & _).
  unfold make_move. rewrite Hlen.
  destruct (drop_piece_cases R C (state g) col O R Hs Hcol) as
    [[Hall _]|(r & row & Hr & Hrow & Hlenr & He & Hbelow & Hd)]; [lia| |].
  - exfalso. apply (Hall 0); [lia|done].
  - eexists. split; [done|]. unfold execute_ai_move. do 2 f_equal.
    unfold get_available_position, range. rewrite Nat.sub_0_r, Hrows.
    rewrite (lowest_loop (state g) col r R Hr He Hbelow).
    unfold set_cell. by rewrite Hrow.
Qed.

Lemma random_move_first_legal (s : board) pre col post :
  Forall (fun d => cell_at s 0 d <> Empty) pre -> cell_at s 0 col = Empty ->
  random_move s (pre ++ col :: post) = Some (col, post).
Proof.
  intros Hpre Hcol. induction Hpre as [|d pre Hd _ IH]; simpl.
  - by rewrite bool_decide_true.
  - by rewrite bool_decide_false.
Qed.

(** C1, as the program has it.  A match is created with the flag
    [last_move] reading "Random".  In Easy mode a computer turn taken
    while the flag reads "Random" plays the column [find_best_move] picks
    at depth 0: the leftmost of the legal columns whose resulting position
    has the greatest static evaluation; none of the generator's numbers is
    used.  A computer turn taken while the flag reads anything else plays
    the first number of the generator that is a legal column. *)
Theorem easy_mode_turn R C (g : GAME_AI) (draws : list nat) :
  game_mode g = "Easy" -> minimax_easy g = 0 -> rows_number g = R ->
  rect R C (state g) -> gravity (state g) = true ->
  (exists col, legal C (state g) col) ->
  (forall rows cols player,
     last_move (GAME_AI_init rows cols player "Easy") = "Random" /\
     minimax_easy (GAME_AI_init rows cols player "Easy") = 0) /\
  (last_move g = "Random" ->
   exists best child,
     find_best_move 0 (state g) = Ok (Some best) /\
     legal C (state g) best /\
     make_move (state g) best O = Ok child /\
     computer_turn draws g =
       Some (Ok (set_start_move (set_current_player (set_state g child) "human")
                                "Smart"), draws) /\
     (forall col child', legal C (state g) col ->
        make_move (state g) col O = Ok child' ->
        (evaluate child' <= evaluate child)%Z /\
        (col < best -> (evaluate child' < evaluate child)%Z))) /\
  (last_move g <> "Random" ->
   forall pre col post,
     draws = pre ++ col :: post ->
     Forall (fun d => cell_at (state g) 0 d <> Empty) pre ->
     legal C (state g) col ->
     exists child,
       make_move (state g) col O = Ok child /\
       computer_turn draws g =
         Some (Ok (set_start_move (set_current_player (set_state g child) "human")
                                  "Random"), post)).
Proof.
  intros Hmode Heasy Hrows Hs Hg Hcol. split; [done|]. split.
  - intros Hflag.
    destruct (find_best_move_spec R C (state g) 0 Hs Hg Hcol)
      as (best & v & Hbest & Hlegal & Hv & Hmax).
    destruct (execute_ai_move_is_make_move R C g best Hrows Hs Hlegal)
      as (child & Hm & Hexec).
    exists best, child. do 3 (split; [done|]). split.
    + unfold computer_turn. rewrite decide_True by done.
      rewrite decide_True by done. rewrite Heasy, Hbest.
      unfold mbind, result_bind. by rewrite Hexec.
    + intros col child' Hc Hm'. destruct (Hmax col Hc) as (w & Hw & Hle & Hlt).
      unfold move_score in Hv, Hw. rewrite Hm in Hv. rewrite Hm' in Hw.
      simpl in Hv, Hw. injection Hv as <-. injection Hw as <-. done.
  - intros Hflag pre col post -> Hpre Hlegal.
    destruct (execute_ai_move_is_make_move R C g col Hrows Hs Hlegal)
      as (child & Hm & Hexec).
    exists child. split; [done|].
    unfold computer_turn. rewrite decide_True by done.
    rewrite decide_False by done.
    rewrite (random_move_first_legal (state g) pre col post Hpre) by apply Hlegal.
    unfold mbind, result_bind. by rewrite Hexec.
Qed.

Lemma easy_mode_turn_witness :
  (forall rows cols player,
     last_move (GAME_AI_init rows cols player "Easy") = "Random" /\
     minimax_easy (GAME_AI_init rows cols player "Easy") = 0) /\
  (last_move easy_match = "Random" ->
   exists best child,
     find_best_move 0 (state easy_match) = Ok (Some best) /\
     legal 7 (state easy_match) best /\
     make_move (state easy_match) best O = Ok child /\
     computer_turn [5] easy_match =
       Some (Ok (set_start_move
                   (set_current_player (set_state easy_match child) "human")
                   "Smart"), [5]) /\
     (forall col child', legal 7 (state easy_match) col ->
        make_move (state easy_match) col O = Ok child' ->
        (evaluate child' <= evaluate child)%Z /\
        (col < best -> (evaluate child' < evaluate child)%Z))) /\
  (last_move easy_match <> "Random" ->
   forall pre col post,
     [5] = pre ++ col :: post ->
     Forall (fun d => cell_at (state easy_match) 0 d <> Empty) pre ->
     legal 7 (state easy_match) col ->
     exists child,
       make_move (state easy_match) col O = Ok child /\
       computer_turn [5] easy_match =
         Some (Ok (set_start_move
                     (set_current_player (set_state easy_match child) "human")
                     "Random"), post)).
Proof.
  apply (easy_mode_turn 6 7 easy_match [5]).
  - reflexivity.
  - reflexivity.
  - reflexivity.
  - rect_by_computation.
  - reflexivity.
  - exists 0. split; [lia | reflexivity].
Defined.

(** C1, as stated, fails.  After the computer's first turn of an Easy
    match the flag still reads "Random"; on its second turn the computer
    plays column 0 again, chosen by [find_best_move], whatever numbers the
    generator holds, and uses none of them: with 5 on offer, a legal
    column, column 5 stays empty. *)
Lemma easy_mode_second_turn_not_random :
  computer_turn [5] easy_match = Some (Ok easy_after_first_turn, [5]) /\
  last_move easy_after_first_turn = "Random" /\
  legal 7 (state (human_turn easy_after_first_turn 3)) 5 /\
  find_best_move 0 (state (human_turn easy_after_first_turn 3)) = Ok (Some 0) /\
  (forall draws,
     computer_turn draws (human_turn easy_after_first_turn 3) =
     Some (Ok easy_after_second_turn, draws)) /\
  cell_at (state easy_after_second_turn) 4 0 = O /\
  cell_at (state easy_after_second_turn) 5 5 = Empty.
Proof.
  split; [reflexivity|]. split; [reflexivity|]. split; [split; [lia|reflexivity]|].
  split; [reflexivity|]. split; [|split; reflexivity].
  intros draws. reflexivity.
Qed.

(** ** Sample runs *)

Lemma winner_detectors_agree_witness :
  (is_a_winner two_rows <> None <->
   is_winner two_rows X = true \/ is_winner two_rows O = true) /\
  (forall mark ps, is_a_winner two_rows = Some (mark, ps) ->
     is_winner two_rows mark = true /\ (mark = X \/ mark = O)).
Proof.
  apply (winner_detectors_agree 4 4 two_rows). rect_by_computation.
Defined.

Lemma evaluate_is_sum_of_window_scores_witness :
  evaluate midgame =
    Zsum (map (fun l => window_score (map (mark_at midgame) l)) (lines 6 7)) /\
  (forall w, length w = 4 -> evaluate_window w = window_score w) /\
  (forall w, length w = 4 -> In X w -> In O w -> window_score w = 0%Z).
Proof.
  apply (evaluate_is_sum_of_window_scores 6 7 midgame). rect_by_computation.
Defined.

(** With two winning rows the upper one is reported. *)
Example is_a_winner_two_rows :
  is_a_winner two_rows = Some (X, [(1, 0); (1, 1); (1, 2); (1, 3)]).
Proof. reflexivity. Qed.

(** Four ['O'] dropped in column 3 of an empty six by seven grid win on
    rows 2 to 5 of that column. *)
Example four_drops_in_column_3 :
  (s ← drops (empty_board 6 7) [(3, O); (3, O); (3, O); (3, O)];
   Ok (is_a_winner s, is_winner s O, is_terminal s))
  = Ok (Some (O, [(2, 3); (3, 3); (4, 3); (5, 3)]), true, true).
Proof. reflexivity. Qed.

(** ['X'] dropped in the gap of [X X X . O O O] wins on columns 0 to 3. *)
Example drop_in_the_gap :
  (s ← drops (empty_board 6 7)
             [(0, X); (1, X); (2, X); (4, O); (5, O); (6, O); (3, X)];
   Ok (is_a_winner s))
  = Ok (Some (X, [(5, 0); (5, 1); (5, 2); (5, 3)])).
Proof. reflexivity. Qed.

(** The evaluator on [midgame]. *)
Example evaluate_midgame : evaluate midgame = 9%Z.
Proof. reflexivity. Qed.

(** Gravity cannot be dropped from the two results that assume it: on
    [hanging] the top cell of column 0 is occupied and yet a move lands
    under it, and a search of depth 2 finds no move although column 1 is
    legal. *)
Example hanging_breaks_both :
  gravity hanging = false /\
  cell_at hanging 0 0 <> Empty /\
  make_move hanging 0 O = Ok [[X; Empty]; [O; Empty]] /\
  legal 2 hanging 1 /\
  find_best_move 2 hanging = Ok None.
Proof.
  split; [reflexivity|]. split; [discriminate|]. split; [reflexivity|].
  split; [split; [lia|reflexivity]|reflexivity].
Qed.

Example validate_accepts :
  validate sample_int "computer" "6" "7" "human" =
  FourInROW_game "computer" 6 7 "human".
Proof. reflexivity. Qed.

Example validate_rejects_rows :
  validate sample_int "computer" "3" "7" "human" =
  Printed "ERROR: The number of rows must be between 4 and 8!".
Proof. reflexivity. Qed.

Example validate_rejects_first_player :
  validate sample_int "human" "6" "7" "computer" =
  Printed "ERROR: In 1v1 games, the first move should be made by 'player1' or 'player2'!".
Proof. reflexivity. Qed.

(** * Further properties of the engine *)

(** ** Legal moves and move application *)

Lemma lookup_split_ascending (f : nat -> bool) a n i j x y :
  i < j -> List.filter f (seq a n) !! i = Some x ->
  List.filter f (seq a n) !! j = Some y -> x < y.
Proof.
  intros Hij Hx Hy.
  pose proof (take_drop_middle _ _ _ Hy) as Hsplit. symmetry in Hsplit.
  apply filter_seq_split in Hsplit as [Hleft _].
  rewrite list.Forall_forall in Hleft. apply Hleft.
  apply list_elem_of_lookup. exists i. rewrite lookup_take_lt by done. done.
Qed.

(** X1. On a rectangular grid [get_possible_moves] lists exactly the
    columns of the grid whose top cell is [Empty], each once, in strictly
    ascending order. *)
Theorem get_possible_moves_ascending R C (s : board) :
  rect R C s ->
  (forall col, col ∈ get_possible_moves s <-> col < C /\ cell_at s 0 col = Empty) /\
  (forall i j a b, i < j -> get_possible_moves s !! i = Some a ->
                   get_possible_moves s !! j = Some b -> a < b) /\
  length (get_possible_moves s) <= C.
Proof.
  intros Hs. split; [|split].
  - intros col. apply (get_possible_moves_legal R C s col Hs).
  - intros i j a b. unfold get_possible_moves, range. apply lookup_split_ascending.
  - unfold get_possible_moves, range. rewrite (rect_columns R C s Hs).
    etrans; [apply filter_length_le|]. rewrite length_seq. lia.
Qed.

Lemma get_possible_moves_ascending_witness :
  (forall col, col ∈ get_possible_moves left_column_full <->
               col < 4 /\ cell_at left_column_full 0 col = Empty) /\
  (forall i j a b, i < j -> get_possible_moves left_column_full !! i = Some a ->
                   get_possible_moves left_column_full !! j = Some b -> a < b) /\
  length (get_possible_moves left_column_full) <= 4.
Proof.
  apply (get_possible_moves_ascending 4 4 left_column_full). rect_by_computation.
Defined.

(** What [make_move] returns on a column of the grid, as a grid: the one
    it was given, or that grid with one [Empty] cell of the column
    written. *)
Lemma make_move_shape R C (s s' : board) col mark :
  rect R C s -> col < C -> make_move s col mark = Ok s' ->
  s' = s \/
  exists r row, r < R /\ s !! r = Some row /\ length row = C /\
                row !! col = Some Empty /\ s' = <[r := <[col := mark]> row]> s.
Proof.
  intros Hs Hcol Hm. pose proof Hs as (HR & Hlen & _).
  unfold make_move in Hm. rewrite Hlen in Hm.
  destruct (drop_piece_cases R C s col mark R Hs Hcol) as
    [[_ Hd]|(r & row & Hr & Hrow & Hlenr & He & _ & Hd)]; [lia| |].
  - left. congruence.
  - right. exists r, row. do 3 (split; [done|]). split; [|congruence].
    destruct (rect_cell R C s r col Hs Hr Hcol) as (row' & Hrow' & _ & Hc).
    rewrite Hrow in Hrow'. injection Hrow' as <-. by rewrite Hc, He.
Qed.

Lemma make_move_keeps_occupied R C (s s' : board) col mark r c :
  rect R C s -> col < C -> make_move s col mark = Ok s' ->
  cell_at s r c <> Empty -> cell_at s' r c = cell_at s r c.
Proof.
  intros Hs Hcol Hm Hocc.
  destruct (make_move_shape R C s s' col mark Hs Hcol Hm)
    as [->|(r0 & row & Hr0 & Hrow & Hlen & Hc & ->)]; [done|].
  rewrite (cell_at_write s r0 row col mark r c Hrow) by lia.
  destruct (decide (r = r0 /\ c = col)) as [[-> ->]|]; [|done].
  exfalso. apply Hocc. unfold cell_at. by rewrite Hrow, Hc.
Qed.

(** X2. [make_move] never writes over a piece: on a column of a
    rectangular grid every occupied cell is the same before and after, so
    a line of four a player has on the grid is still there after any
    further move. *)
Theorem make_move_never_overwrites R C (s s' : board) col mark :
  rect R C s -> col < C -> make_move s col mark = Ok s' ->
  (forall r c, cell_at s r c <> Empty -> cell_at s' r c = cell_at s r c) /\
  (forall player, player <> Empty ->
     is_winner s player = true -> is_winner s' player = true).
Proof.
  intros Hs Hcol Hm.
  assert (Hkeep : forall r c, cell_at s r c <> Empty ->
                              cell_at s' r c = cell_at s r c).
  { intros r c. by apply (make_move_keeps_occupied R C s s' col mark). }
  split; [done|]. intros player Hp Hwin.
  destruct (make_move_returns R C s col mark Hs Hcol) as (s1 & Hm1 & Hs').
  rewrite Hm in Hm1. injection Hm1 as <-.
  apply (is_winner_iff R C s player Hs) in Hwin as (d & r & c & Hfit & Hholds).
  apply (is_winner_iff R C s' player Hs'). exists d, r, c. split; [done|].
  apply holds_Forall. apply holds_Forall in Hholds.
  eapply Forall_impl; [|exact Hholds]. simpl. intros q Hq.
  unfold mark_at in *. rewrite Hkeep; [done|]. by rewrite Hq.
Qed.

Lemma make_move_never_overwrites_witness :
  (forall r c, cell_at midgame r c <> Empty ->
               cell_at [ [Empty; Empty; Empty; Empty; Empty; Empty; Empty];
                         [Empty; Empty; Empty; Empty; Empty; Empty; Empty];
                         [Empty; Empty; Empty; X;     Empty; Empty; Empty];
                         [Empty; Empty; Empty; O;     Empty; Empty; Empty];
                         [Empty; Empty; X;     O;     Empty; Empty; Empty];
                         [Empty; X;     X;     O;     O;     Empty; Empty] ] r c
               = cell_at midgame r c) /\
  (forall player, player <> Empty ->
     is_winner midgame player = true ->
     is_winner [ [Empty; Empty; Empty; Empty; Empty; Empty; Empty];
                 [Empty; Empty; Empty; Empty; Empty; Empty; Empty];
                 [Empty; Empty; Empty; X;     Empty; Empty; Empty];
                 [Empty; Empty; Empty; O;     Empty; Empty; Empty];
                 [Empty; Empty; X;     O;     Empty; Empty; Empty];
                 [Empty; X;     X;     O;     O;     Empty; Empty] ] player = true).
Proof.
  apply (make_move_never_overwrites 6 7 midgame _ 3 X).
  - rect_by_computation.
  - lia.
  - reflexivity.
Defined.

(** X3. Moves keep the grid well formed: on a rectangular grid that obeys
    gravity, [make_move] with ['X'] or ['O'] on any column of the grid,
    legal or full, returns a rectangular grid of the same size that obeys
    gravity. *)
Theorem make_move_keeps_invariants R C (s : board) col mark :
  rect R C s -> gravity s = true -> col < C -> mark <> Empty ->
  exists s', make_move s col mark = Ok s' /\ rect R C s' /\ gravity s' = true.
Proof.
  intros Hs Hg Hcol Hmark.
  destruct (decide (cell_at s 0 col = Empty)) as [Htop|Htop].
  - destruct (make_move_legal R C s col mark Hs (conj Hcol Htop))
      as (s' & r & Hm & Hs' & _).
    exists s'. split; [done|]. split; [done|].
    by apply (gravity_make_move R C s s' col mark).
  - exists s. split; [|done]. apply (make_move_full_column R C); [done|done|].
    intros r Hr. apply (gravity_below R C s col 0 r); try done. lia.
Qed.

Lemma make_move_keeps_invariants_witness :
  exists s', make_move midgame 3 X = Ok s' /\ rect 6 7 s' /\ gravity s' = true.
Proof.
  apply (make_move_keeps_invariants 6 7 midgame 3 X).
  - rect_by_computation.
  - reflexivity.
  - lia.
  - discriminate.
Defined.

(** ** Counting pieces *)

Lemma count_app (l1 l2 : list cell) x : count (l1 ++ l2) x = count l1 x + count l2 x.
Proof. unfold count. by rewrite filter_app, length_app. Qed.

Lemma count_cons (y : cell) l x :
  count (y :: l) x = (if decide (y = x) then 1 else 0) + count l x.
Proof.
  unfold count. simpl. destruct (decide (y = x)) as [->|Hne].
  - by rewrite bool_decide_true.
  - by rewrite bool_decide_false.
Qed.

Lemma count_insert (l : list cell) i old y x :
  l !! i = Some old ->
  count (<[i := y]> l) x + (if decide (old = x) then 1 else 0) =
  count l x + (if decide (y = x) then 1 else 0).
Proof.
  intros Hi. pose proof (lookup_lt_Some _ _ _ Hi) as Hlt.
  rewrite insert_take_drop by done.
  rewrite <- (take_drop_middle l i old Hi) at 3.
  rewrite !count_app, !count_cons. lia.
Qed.

Lemma count_board_insert (s : board) r row row' x :
  s !! r = Some row ->
  count_board (<[r := row']> s) x + count row x = count_board s x + count row' x.
Proof.
  intros Hr. pose proof (lookup_lt_Some _ _ _ Hr) as Hlt. unfold count_board.
  rewrite insert_take_drop by done.
  rewrite <- (take_drop_middle s r row Hr) at 3.
  rewrite !concat_app. simpl. rewrite !count_app. lia.
Qed.

(** A move on a legal column changes the numbers of marks by one piece. *)
Lemma make_move_counts R C (s s' : board) col mark :
  rect R C s -> legal C s col -> mark <> Empty ->
  make_move s col mark = Ok s' ->
  count_board s' mark = count_board s mark + 1 /\
  count_board s' Empty + 1 = count_board s Empty /\
  (forall other, other <> mark -> other <> Empty ->
                 count_board s' other = count_board s other).
Proof.
  intros Hs [Hcol Htop] Hmark Hm.
  destruct (make_move_shape R C s s' col mark Hs Hcol Hm)
    as [->|(r & row & Hr & Hrow & Hlen & Hc & ->)].
  - exfalso. pose proof Hs as (HR & Hl & _).
    destruct (make_move_legal R C s col mark Hs (conj Hcol Htop))
      as (s1 & r & Hm1 & _ & Hr & He & _ & Hcells).
    rewrite Hm in Hm1. injection Hm1 as <-.
    specialize (Hcells r col). rewrite decide_True in Hcells by done. congruence.
  - assert (Hcount : forall x,
              count_board (<[r := <[col := mark]> row]> s) x
              + (if decide (Empty = x) then 1 else 0)
              = count_board s x + (if decide (mark = x) then 1 else 0)).
    { intros x.
      pose proof (count_board_insert s r row (<[col := mark]> row) x Hrow).
      pose proof (count_insert row col Empty mark x Hc). lia. }
    split; [|split].
    + specialize (Hcount mark). rewrite decide_False, decide_True in Hcount by done.
      lia.
    + specialize (Hcount Empty).
      rewrite decide_True, decide_False in Hcount by done. lia.
    + intros other Ho1 Ho2. specialize (Hcount other).
      rewrite !decide_False in Hcount by done. lia.
Qed.

(** X4. A move on a legal column of a rectangular grid adds exactly one
    piece: the number of cells holding the mover's mark goes up by one,
    the number of [Empty] cells goes down by one, and the other mark's
    count stays.  So at most rows times columns moves fit in a game. *)
Theorem make_move_adds_one_piece R C (s s' : board) col mark :
  rect R C s -> legal C s col -> mark <> Empty ->
  make_move s col mark = Ok s' ->
  count_board s' mark = count_board s mark + 1 /\
  count_board s' Empty + 1 = count_board s Empty /\
  (forall other, other <> mark -> other <> Empty ->
                 count_board s' other = count_board s other).
Proof. apply make_move_counts. Qed.

Lemma make_move_adds_one_piece_witness :
  count_board [ [Empty; Empty; Empty; Empty; Empty; Empty; Empty];
                [Empty; Empty; Empty; Empty; Empty; Empty; Empty];
                [Empty; Empty; Empty; X;     Empty; Empty; Empty];
                [Empty; Empty; Empty; O;     Empty; Empty; Empty];
                [Empty; Empty; X;     O;     Empty; Empty; Empty];
                [Empty; X;     X;     O;     O;     Empty; Empty] ] X
  = count_board midgame X + 1 /\
  count_board [ [Empty; Empty; Empty; Empty; Empty; Empty; Empty];
                [Empty; Empty; Empty; Empty; Empty; Empty; Empty];
                [Empty; Empty; Empty; X;     Empty; Empty; Empty];
                [Empty; Empty; Empty; O;     Empty; Empty; Empty];
                [Empty; Empty; X;     O;     Empty; Empty; Empty];
                [Empty; X;     X;     O;     O;     Empty; Empty] ] Empty + 1
  = count_board midgame Empty /\
  (forall other, other <> X -> other <> Empty ->
     count_board [ [Empty; Empty; Empty; Empty; Empty; Empty; Empty];
                   [Empty; Empty; Empty; Empty; Empty; Empty; Empty];
                   [Empty; Empty; Empty; X;     Empty; Empty; Empty];
                   [Empty; Empty; Empty; O;     Empty; Empty; Empty];
                   [Empty; Empty; X;     O;     Empty; Empty; Empty];
                   [Empty; X;     X;     O;     O;     Empty; Empty] ] other
     = count_board midgame other).
Proof.
  apply (make_move_adds_one_piece 6 7 midgame _ 3 X).
  - rect_by_computation.
  - split; [lia | reflexivity].
  - discriminate.
  - reflexivity.
Defined.

(** ** The evaluator under an exchange of the marks *)

Lemma cell_at_swap (s : board) r c :
  cell_at (swap_marks s) r c = swap_mark (cell_at s r c).
Proof.
  unfold cell_at, swap_marks. rewrite list_lookup_fmap.
  destruct (s !! r) as [row|]; simpl; [|done].
  rewrite list_lookup_fmap. by destruct (row !! c).
Qed.

Lemma columns_swap (s : board) : columns (swap_marks s) = columns s.
Proof. destruct s as [|row s]; simpl; [done|]. apply length_map. Qed.

Lemma length_swap (s : board) : length (swap_marks s) = length s.
Proof. apply length_map. Qed.

Lemma evaluate_window_swap (w : list cell) :
  length w = 4 -> evaluate_window (map swap_mark w) = (- evaluate_window w)%Z.
Proof.
  intros Hlen. destruct w as [|a [|b [|c [|d [|e w]]]]]; try discriminate.
  destruct a, b, c, d; reflexivity.
Qed.

Lemma Zsum_map_opp {A} (f : A -> Z) (l : list A) :
  Zsum (map (fun a => (- f a)%Z) l) = (- Zsum (map f l))%Z.
Proof. induction l as [|a l IH]; simpl; [done|]. rewrite IH. lia. Qed.

Lemma slice4_length (row : list cell) col :
  col + 3 < length row -> length (slice4 row col) = 4.
Proof. intros H. unfold slice4. rewrite length_take, length_drop. lia. Qed.

Lemma evaluate_swap (s : board) :
  evaluate (swap_marks s) = (- evaluate s)%Z.
Proof.
  unfold evaluate. cbv zeta. rewrite !for_acc_sum2.
  rewrite !columns_swap, !length_swap.
  assert (Hline : forall f : nat -> nat -> nat -> cell,
    forall rs cs,
    Zsum (map (fun a => Zsum (map (fun b =>
            evaluate_window (line4 (fun i => swap_mark (f a b i)))) cs)) rs)
    = (- Zsum (map (fun a => Zsum (map (fun b =>
            evaluate_window (line4 (f a b))) cs)) rs))%Z).
  { intros f rs cs. rewrite <- Zsum_map_opp. apply Zsum_map_ext. intros a _.
    rewrite <- Zsum_map_opp. apply Zsum_map_ext. intros b _.
    rewrite <- evaluate_window_swap by done. reflexivity. }
  assert (Hrows :
    Zsum (map (fun row => Zsum (map (fun col => evaluate_window (slice4 row col))
                                    (range 0 (length row - 3))))
              (swap_marks s))
    = (- Zsum (map (fun row => Zsum (map (fun col =>
            evaluate_window (slice4 row col))
            (range 0 (length row - 3)))) s))%Z).
  { unfold swap_marks. rewrite map_map, <- Zsum_map_opp. apply Zsum_map_ext. intros row _.
    rewrite length_map, <- Zsum_map_opp. apply Zsum_map_ext. intros col Hcol.
    apply In_range in Hcol.
    rewrite <- evaluate_window_swap by (apply slice4_length; lia).
    unfold slice4. by rewrite <- fmap_drop, <- fmap_take. }
  rewrite Hrows.
  rewrite (Zsum_map_ext
    (fun a => Zsum (map (fun b => evaluate_window
       (line4 (fun i => cell_at (swap_marks s) (b + i) a))) (range 0 (length s - 3))))
    (fun a => Zsum (map (fun b => evaluate_window
       (line4 (fun i => swap_mark (cell_at s (b + i) a)))) (range 0 (length s - 3)))))
    by (intros a _; apply Zsum_map_ext; intros b _;
        rewrite !line4_cells, !cell_at_swap; reflexivity).
  rewrite (Hline (fun a b i => cell_at s (b + i) a)).
  rewrite (Zsum_map_ext
    (fun a => Zsum (map (fun b => evaluate_window
       (line4 (fun i => cell_at (swap_marks s) (a + i) (b + i))))
       (range 0 (columns s - 3))))
    (fun a => Zsum (map (fun b => evaluate_window
       (line4 (fun i => swap_mark (cell_at s (a + i) (b + i)))))
       (range 0 (columns s - 3)))))
    by (intros a _; apply Zsum_map_ext; intros b _;
        rewrite !line4_cells, !cell_at_swap; reflexivity).
  rewrite (Hline (fun a b i => cell_at s (a + i) (b + i))).
  rewrite (Zsum_map_ext
    (fun a => Zsum (map (fun b => evaluate_window
       (line4 (fun i => cell_at (swap_marks s) (a + i) (b - i))))
       (range 3 (columns s))))
    (fun a => Zsum (map (fun b => evaluate_window
       (line4 (fun i => swap_mark (cell_at s (a + i) (b - i)))))
       (range 3 (columns s)))))
    by (intros a _; apply Zsum_map_ext; intros b _;
        rewrite !line4_cells, !cell_at_swap; reflexivity).
  rewrite (Hline (fun a b i => cell_at s (a + i) (b - i))).
  lia.
Qed.

(** X5. The evaluator is impartial: exchanging ['X'] and ['O'] on the whole
    grid turns the score into its opposite.  An empty grid, or any grid
    that the exchange leaves as it is, scores 0. *)
Theorem evaluate_swap_marks (s : board) :
  evaluate (swap_marks s) = (- evaluate s)%Z /\
  (swap_marks s = s -> evaluate s = 0%Z).
Proof.
  pose proof (evaluate_swap s) as Hswap.
  split; [done|]. intros Hfix. rewrite Hfix in Hswap. lia.
Qed.

(** ** Full grids, terminal positions and the values of the search *)

Lemma board_full_cells R C (s : board) :
  rect R C s ->
  board_full s = true <->
  (forall r c, r < R -> c < C -> cell_at s r c <> Empty).
Proof.
  intros Hs. pose proof Hs as (HR & Hlen & Hall). unfold board_full. split.
  - intros Hfull r c Hr Hc.
    destruct (rect_cell R C s r c Hs Hr Hc) as (row & Hrow & _ & Hcell).
    rewrite forallb_forall in Hfull.
    assert (Hin : In row s) by (apply list_elem_of_In; by eapply list_elem_of_lookup_2).
    specialize (Hfull row Hin). rewrite forallb_forall in Hfull.
    assert (Hin' : In (cell_at s r c) row)
      by (apply list_elem_of_In; by eapply list_elem_of_lookup_2).
    specialize (Hfull _ Hin').
    by apply negb_true_iff, bool_decide_eq_false in Hfull.
  - intros Hcells. destruct (forallb _ s) eqn:Hf; [done|]. exfalso.
    apply forallb_false_lookup in Hf as (r & row & Hrow & Hf).
    apply forallb_false_lookup in Hf as (c & x & Hx & Hempty).
    apply negb_false_iff, bool_decide_eq_true in Hempty. subst x.
    pose proof (Forall_lookup_1 _ _ _ _ Hall Hrow) as Hlr. simpl in Hlr.
    pose proof (lookup_lt_Some _ _ _ Hrow) as Hr.
    pose proof (lookup_lt_Some _ _ _ Hx) as Hc.
    apply (Hcells r c); [lia|lia|]. unfold cell_at. by rewrite Hrow, Hx.
Qed.

(** X6. On a rectangular grid that obeys gravity there is no legal column
    exactly when the grid is full; so a position that [is_terminal] does
    not call terminal always has a move for the search to try. *)
Theorem no_move_iff_full R C (s : board) :
  rect R C s -> gravity s = true ->
  (get_possible_moves s = [] <-> board_full s = true) /\
  (is_terminal s = false -> get_possible_moves s <> []).
Proof.
  intros Hs Hg.
  assert (Hnone : board_full s = false -> get_possible_moves s <> []).
  { intros Hfull Hnil.
    destruct (not_full_has_legal R C s Hs Hg Hfull) as [col Hcol].
    apply (get_possible_moves_legal R C s col Hs) in Hcol.
    rewrite Hnil in Hcol. by apply not_elem_of_nil in Hcol. }
  split; [split|].
  - intros Hnil. destruct (board_full s) eqn:Hfull; [done|].
    by destruct (Hnone eq_refl).
  - intros Hfull. destruct (get_possible_moves s) as [|col moves] eqn:Hmoves; [done|].
    assert (Hin : col ∈ get_possible_moves s) by (rewrite Hmoves; by left).
    apply (get_possible_moves_legal R C s col Hs) in Hin as [Hcol Htop].
    pose proof Hs as (HR & _).
    exfalso. by apply (proj1 (board_full_cells R C s Hs) Hfull 0 col).
  - intros Hterm. by apply Hnone, not_terminal_not_full.
Qed.

Lemma no_move_iff_full_witness :
  (get_possible_moves midgame = [] <-> board_full midgame = true) /\
  (is_terminal midgame = false -> get_possible_moves midgame <> []).
Proof.
  apply (no_move_iff_full 6 7 midgame); [rect_by_computation | reflexivity].
Defined.

(** X7. On a rectangular grid that obeys gravity the search returns an
    integer at every depth and for either player: the infinities its
    loops start from never come out, and nothing is raised. *)
Theorem minimax_returns_an_integer R C (s : board) depth (maximizing : bool) :
  rect R C s -> gravity s = true ->
  exists z, minimax s depth maximizing = Ok (Fin z).
Proof. intros Hs Hg. by apply (minimax_finite R C). Qed.

Lemma minimax_returns_an_integer_witness :
  exists z, minimax midgame 3 true = Ok (Fin z).
Proof.
  apply (minimax_returns_an_integer 6 7 midgame 3 true);
    [rect_by_computation | reflexivity].
Defined.

Lemma move_score_returns R C depth (s : board) col :
  rect R C s -> col < C -> exists v, move_score depth s col = Ok v.
Proof.
  intros Hs Hcol.
  destruct (make_move_returns R C s col O Hs Hcol) as (child & Hm & Hc).
  destruct (minimax_returns R C depth child false Hc) as [v Hv].
  exists v. unfold move_score. by rewrite Hm.
Qed.

Lemma best_loop_total depth (s : board) moves bs bm :
  Forall (fun m => exists v, move_score depth s m = Ok v) moves ->
  exists bs' bm',
    for_acc moves (fun move acc =>
      '(best_score, best_move) ← acc;
      score ← move_score depth s move;
      if ext_ltb best_score score then Ok (score, Some move)
      else Ok (best_score, best_move)) (Ok (bs, bm)) = Ok (bs', bm') /\
    (bm' = bm \/ exists m, bm' = Some m /\ m ∈ moves).
Proof.
  intros Hmoves. revert bs bm. unfold for_acc.
  induction Hmoves as [|m moves [v Hv] _ IH]; intros bs bm; simpl.
  - exists bs, bm. by split; [|left].
  - rewrite Hv. simpl. destruct (ext_ltb bs v).
    + destruct (IH v (Some m)) as (bs' & bm' & Hloop & Hbm).
      exists bs', bm'. split; [done|]. right.
      destruct Hbm as [->|(m' & -> & Hin)]; [exists m|exists m'];
        (split; [done|]); [by left|by right].
    + destruct (IH bs bm) as (bs' & bm' & Hloop & Hbm).
      exists bs', bm'. split; [done|].
      destruct Hbm as [->|(m' & -> & Hin)]; [by left|].
      right. exists m'. split; [done|by right].
Qed.

(** X8. On every rectangular grid, gravity or not, [find_best_move]
    raises nothing, and what it returns is [None] or a legal column; with
    no legal column it returns [None]. *)
Theorem find_best_move_none_or_legal R C (s : board) depth :
  rect R C s ->
  exists answer,
    find_best_move depth s = Ok answer /\
    (forall col, answer = Some col -> legal C s col) /\
    (get_possible_moves s = [] -> answer = None).
Proof.
  intros Hs.
  destruct (best_loop_total depth s (get_possible_moves s) NegInf None)
    as (bs & bm & Hloop & Hbm).
  { eapply Forall_impl; [|apply (possible_moves_in_grid R C s Hs)].
    simpl. intros col Hcol. by apply (move_score_returns R C). }
  exists bm. split; [|split].
  - unfold find_best_move. by rewrite Hloop.
  - intros col ->. destruct Hbm as [?|(m & [= <-] & Hin)]; [done|].
    by apply (get_possible_moves_legal R C s col Hs).
  - intros Hnil. destruct Hbm as [->|(m & _ & Hin)]; [done|].
    rewrite Hnil in Hin. by apply not_elem_of_nil in Hin.
Qed.

Lemma find_best_move_none_or_legal_witness :
  exists answer,
    find_best_move 2 hanging = Ok answer /\
    (forall col, answer = Some col -> legal 2 hanging col) /\
    (get_possible_moves hanging = [] -> answer = None).
Proof.
  apply (find_best_move_none_or_legal 2 2 hanging 2). rect_by_computation.
Defined.

(** * Further properties of the controller *)

Lemma is_draw_cells (g : GAME_AI) :
  is_draw g = true <->
  (forall r c, r < rows_number g -> c < columns_number g ->
               cell_at (state g) r c <> Empty).
Proof.
  unfold is_draw. rewrite forallb_forall. split.
  - intros H r c Hr Hc. specialize (H r). rewrite In_range in H.
    assert (Hr' : 0 <= r < rows_number g) by lia. specialize (H Hr').
    rewrite forallb_forall in H. specialize (H c). rewrite In_range in H.
    assert (Hc' : 0 <= c < columns_number g) by lia. specialize (H Hc').
    by apply negb_true_iff, bool_decide_eq_false in H.
  - intros H r Hr. apply In_range in Hr. apply forallb_forall. intros c Hc.
    apply In_range in Hc. apply negb_true_iff, bool_decide_eq_false.
    apply H; lia.
Qed.

Lemma is_draw_board_full R C (g : GAME_AI) :
  rows_number g = R -> columns_number g = C -> rect R C (state g) ->
  is_draw g = board_full (state g).
Proof.
  intros Hrows Hcols Hs.
  pose proof (is_draw_cells g) as Hd. rewrite Hrows, Hcols in Hd.
  pose proof (board_full_cells R C (state g) Hs) as Hf.
  destruct (is_draw g), (board_full (state g)); try done.
  - symmetry. apply Hf, Hd. done.
  - apply Hd, Hf. done.
Qed.

(** Some player has a line exactly when [is_a_winner] reports one. *)
Lemma some_winner_iff R C (s : board) :
  rect R C s ->
  is_winner s O || is_winner s X = true <-> is_a_winner s <> None.
Proof.
  intros Hs. pose proof Hs as (HR & Hlen & _).
  rewrite is_a_winner_find, Hlen, (rect_columns R C s Hs). split.
  - intros Hw.
    assert (exists p, p <> Empty /\ is_winner s p = true) as (p & Hp & Hwp).
    { apply orb_true_iff in Hw as [Hw|Hw]; [by exists O|by exists X]. }
    apply (is_winner_iff R C s p Hs) in Hwp as (d & r & c & Hfit & Hholds).
    assert (Hwins : wins s (line_from d r c) = true).
    { apply wins_holds. exists p. split; [done|]. split; [done|].
      apply holds_line_from in Hholds. by destruct d; destruct Hholds. }
    assert (Hin : In (line_from d r c) (lines R C)).
    { apply in_lines. by exists d, r, c. }
    destruct (List.find (wins s) (lines R C)) as [l|] eqn:Hl; [done|].
    pose proof (find_none _ _ Hl _ Hin) as Hno. simpl in Hno. congruence.
  - intros Hsome.
    destruct (List.find (wins s) (lines R C)) as [l|] eqn:Hl; [|done].
    apply find_some in Hl as [Hin Hw].
    apply in_lines in Hin as (d & r & c & Hfit & ->).
    apply wins_holds in Hw as (p & Hp & Hholds & _).
    assert (Hwp : is_winner s p = true).
    { apply (is_winner_iff R C s p Hs). by exists d, r, c. }
    apply orb_true_iff. destruct p; [done|by right|by left].
Qed.

(** X9. The search and the controller agree on when a game is over: on
    the grid of a match the draw test [is_draw] is the search's full-grid
    test, and [is_terminal] holds exactly when the end of a round has
    something to report.  A line of four is reported even when the grid
    is full as well. *)
Theorem terminal_iff_outcome R C (g : GAME_AI) :
  rows_number g = R -> columns_number g = C -> rect R C (state g) ->
  is_draw g = board_full (state g) /\
  (is_terminal (state g) = true <-> check_outcome g None <> None) /\
  (forall w before, is_a_winner (state g) = Some w ->
                    check_outcome g before = Some w).
Proof.
  intros Hrows Hcols Hs. split; [by apply (is_draw_board_full R C)|]. split.
  - unfold is_terminal, check_outcome.
    rewrite (is_draw_board_full R C g Hrows Hcols Hs).
    pose proof (some_winner_iff R C (state g) Hs) as Hw.
    destruct (is_winner (state g) O || is_winner (state g) X).
    + destruct (is_a_winner (state g)); [done|]. by destruct (proj1 Hw eq_refl).
    + destruct (is_a_winner (state g)) as [w|].
      * assert (false = true) by (apply Hw; done). done.
      * by destruct (board_full (state g)).
  - intros w before Hwin. unfold check_outcome. by rewrite Hwin.
Qed.

Lemma terminal_iff_outcome_witness :
  is_draw easy_after_first_turn = board_full (state easy_after_first_turn) /\
  (is_terminal (state easy_after_first_turn) = true <->
   check_outcome easy_after_first_turn None <> None) /\
  (forall w before, is_a_winner (state easy_after_first_turn) = Some w ->
                    check_outcome easy_after_first_turn before = Some w).
Proof.
  apply (terminal_iff_outcome 6 7 easy_after_first_turn).
  - reflexivity.
  - reflexivity.
  - rect_by_computation.
Defined.

Lemma is_valid_move_iff (g : GAME_AI) col :
  is_valid_move g col = true <->
  exists r, r < rows_number g /\ cell_at (state g) r col = Empty.
Proof.
  unfold is_valid_move. rewrite existsb_exists. split.
  - intros (r & Hr & He). apply In_range in Hr. apply bool_decide_eq_true in He.
    exists r. split; [lia|done].
  - intros (r & Hr & He). exists r. split; [apply In_range; lia|].
    by apply bool_decide_eq_true.
Qed.

(** The row [get_available_position] answers, and the grid the two
    [execute] methods leave, on a column with a free cell. *)
Lemma drop_position R C (g : GAME_AI) col mark :
  rows_number g = R -> rect R C (state g) -> col < C ->
  is_valid_move g col = true ->
  exists r child,
    r < R /\ cell_at (state g) r col = Empty /\
    (forall r', r < r' < R -> cell_at (state g) r' col <> Empty) /\
    get_available_position g col = r /\
    make_move (state g) col mark = Ok child /\
    set_cell (state g) r col mark = child /\
    rect R C child.
Proof.
  intros Hrows Hs Hcol Hvalid. pose proof Hs as (HR & Hlen & _).
  apply is_valid_move_iff in Hvalid as (r1 & Hr1 & He1). rewrite Hrows in Hr1.
  destruct (drop_piece_cases R C (state g) col mark R Hs Hcol) as
    [[Hall _]|(r & row & Hr & Hrow & Hlenr & He & Hbelow & Hd)]; [lia| |].
  - exfalso. by apply (Hall r1).
  - exists r, (<[r := <[col := mark]> row]> (state g)).
    do 3 (split; [done|]). split; [|split; [|split]].
    + unfold get_available_position, range. rewrite Nat.sub_0_r, Hrows.
      by apply lowest_loop.
    + unfold make_move. by rewrite Hlen.
    + unfold set_cell. by rewrite Hrow.
    + by apply rect_write.
Qed.

(** X10. The controller and the search drop a piece in the same place: on
    a column that [is_valid_move] accepts, [execute_move] (the human's
    ['X']) and [execute_ai_move] (the computer's ['O']) leave exactly the
    grid [make_move] returns for that column and mark, the piece lying on
    the lowest free row. *)
Theorem execute_move_is_make_move R C (g : GAME_AI) col :
  rows_number g = R -> rect R C (state g) -> col < C ->
  is_valid_move g col = true ->
  make_move (state g) col X = Ok (state (execute_move g col)) /\
  (exists g', execute_ai_move g (Some col) = Ok g' /\
              make_move (state g) col O = Ok (state g')) /\
  cell_at (state g) (get_available_position g col) col = Empty /\
  (forall r, get_available_position g col < r < R ->
             cell_at (state g) r col <> Empty).
Proof.
  intros Hrows Hs Hcol Hvalid.
  destruct (drop_position R C g col X Hrows Hs Hcol Hvalid)
    as (r & child & Hr & He & Hbelow & Hpos & Hm & Hset & _).
  destruct (drop_position R C g col O Hrows Hs Hcol Hvalid)
    as (r' & child' & _ & _ & _ & Hpos' & Hm' & Hset' & _).
  split; [|split; [|split]].
  - unfold execute_move. simpl. rewrite Hpos, Hset. done.
  - eexists. split; [reflexivity|]. simpl. rewrite Hpos', Hset'. done.
  - by rewrite Hpos.
  - by rewrite Hpos.
Qed.

Lemma execute_move_is_make_move_witness :
  make_move (state easy_after_first_turn) 0 X =
    Ok (state (execute_move easy_after_first_turn 0)) /\
  (exists g', execute_ai_move easy_after_first_turn (Some 0) = Ok g' /\
              make_move (state easy_after_first_turn) 0 O = Ok (state g')) /\
  cell_at (state easy_after_first_turn)
          (get_available_position easy_after_first_turn 0) 0 = Empty /\
  (forall r, get_available_position easy_after_first_turn 0 < r < 6 ->
             cell_at (state easy_after_first_turn) r 0 <> Empty).
Proof.
  apply (execute_move_is_make_move 6 7 easy_after_first_turn 0).
  - reflexivity.
  - rect_by_computation.
  - lia.
  - reflexivity.
Defined.

Lemma lowest_loop_none (s : board) col n :
  (forall r, r < n -> cell_at s r col <> Empty) ->
  for_acc (seq 0 n) (fun i line =>
    if bool_decide (cell_at s i col = Empty) then i else line) 0 = 0.
Proof.
  induction n as [|n IH]; intros Hall; [done|].
  rewrite seq_S, for_acc_snoc. simpl.
  rewrite bool_decide_false by (apply Hall; lia).
  apply IH. intros r Hr. apply Hall. lia.
Qed.

(** X11. What the guard [is_valid_move] is for: on a column with no free
    cell [get_available_position] answers row 0, so [execute_move] there
    would replace the piece on top of the column and leave every other
    cell alone, whereas [make_move] on that column changes nothing. *)
Theorem execute_move_on_full_column R C (g : GAME_AI) col :
  rows_number g = R -> rect R C (state g) -> col < C ->
  is_valid_move g col = false ->
  get_available_position g col = 0 /\
  cell_at (state g) 0 col <> Empty /\
  cell_at (state (execute_move g col)) 0 col = X /\
  (forall r c, (r, c) <> (0, col) ->
     cell_at (state (execute_move g col)) r c = cell_at (state g) r c) /\
  make_move (state g) col X = Ok (state g).
Proof.
  intros Hrows Hs Hcol Hvalid. pose proof Hs as (HR & Hlen & _).
  assert (Hfull : forall r, r < R -> cell_at (state g) r col <> Empty).
  { intros r Hr He. assert (is_valid_move g col = true); [|congruence].
    apply is_valid_move_iff. exists r. split; [lia|done]. }
  assert (Hpos : get_available_position g col = 0).
  { unfold get_available_position, range. rewrite Nat.sub_0_r, Hrows.
    by apply lowest_loop_none. }
  destruct (rect_row R C (state g) 0 Hs) as (row & Hrow & Hlr); [lia|].
  assert (Hstate : state (execute_move g col) = <[0 := <[col := X]> row]> (state g)).
  { unfold execute_move. simpl. rewrite Hpos. unfold set_cell. by rewrite Hrow. }
  split; [done|]. split; [apply Hfull; lia|]. rewrite Hstate. split; [|split].
  - rewrite (cell_at_write _ 0 row col X 0 col Hrow) by lia.
    by rewrite decide_True.
  - intros r c Hne. rewrite (cell_at_write _ 0 row col X r c Hrow) by lia.
    rewrite decide_False; [done|]. intros [-> ->]. done.
  - by apply (make_move_full_column R C).
Qed.

Lemma execute_move_on_full_column_witness :
  get_available_position small_match 0 = 0 /\
  cell_at (state small_match) 0 0 <> Empty /\
  cell_at (state (execute_move small_match 0)) 0 0 = X /\
  (forall r c, (r, c) <> (0, 0) ->
     cell_at (state (execute_move small_match 0)) r c
     = cell_at (state small_match) r c) /\
  make_move (state small_match) 0 X = Ok (state small_match).
Proof.
  apply (execute_move_on_full_column 4 4 small_match 0).
  - reflexivity.
  - rect_by_computation.
  - lia.
  - reflexivity.
Defined.

(** X12. On the grid of a match that obeys gravity the human's columns
    and the computer's are the same: [is_valid_move], which looks for a
    free cell anywhere in the column, accepts exactly the columns
    [get_possible_moves] lists, which looks at the top cell only. *)
Theorem is_valid_move_iff_possible R C (g : GAME_AI) col :
  rows_number g = R -> rect R C (state g) -> gravity (state g) = true ->
  col < C ->
  (is_valid_move g col = true <-> col ∈ get_possible_moves (state g)).
Proof.
  intros Hrows Hs Hg Hcol. pose proof Hs as (HR & _).
  rewrite (get_possible_moves_legal R C (state g) col Hs), is_valid_move_iff, Hrows.
  split.
  - intros (r & Hr & He). split; [done|].
    destruct (decide (cell_at (state g) 0 col = Empty)) as [|Hocc]; [done|].
    exfalso. apply (gravity_below R C (state g) col 0 r Hs Hg); [lia|lia|lia|done|done].
  - intros [_ Htop]. exists 0. split; [lia|done].
Qed.

Lemma is_valid_move_iff_possible_witness :
  is_valid_move small_match 0 = true <-> 0 ∈ get_possible_moves (state small_match).
Proof.
  apply (is_valid_move_iff_possible 4 4 small_match 0).
  - reflexivity.
  - rect_by_computation.
  - reflexivity.
  - lia.
Defined.

Lemma cell_at_empty_board R C r c : cell_at (empty_board R C) r c = Empty.
Proof.
  unfold cell_at, empty_board.
  destruct (replicate R (replicate C Empty) !! r) as [row|] eqn:Hrow; [|done].
  apply lookup_replicate in Hrow as [-> _].
  destruct (replicate C Empty !! c) as [x|] eqn:Hx; [|done].
  by apply lookup_replicate in Hx as [-> _].
Qed.

Lemma swap_empty_board R C : swap_marks (empty_board R C) = empty_board R C.
Proof.
  unfold swap_marks, empty_board.
  change (map (map swap_mark) (replicate R (replicate C Empty)))
    with (map swap_mark <$> replicate R (replicate C Empty)).
  rewrite fmap_replicate.
  change (map swap_mark (replicate C Empty)) with (swap_mark <$> replicate C Empty).
  by rewrite fmap_replicate.
Qed.

Lemma is_a_winner_empty_board R C : 1 <= R -> is_a_winner (empty_board R C) = None.
Proof.
  intros HR. pose proof (rect_empty_board R C HR) as Hs.
  destruct (is_a_winner (empty_board R C)) as [w|] eqn:Hw; [|done]. exfalso.
  rewrite is_a_winner_find in Hw.
  destruct (List.find _ _) as [l|] eqn:Hl; [|done].
  apply find_some in Hl as [_ Hwins].
  apply wins_holds in Hwins as (p & Hp & _ & Hfirst).
  destruct l as [|q l]; [done|]. unfold mark_at in Hfirst.
  rewrite cell_at_empty_board in Hfirst. congruence.
Qed.

(** X13. A match starts, and starts again after [reset_state], on a grid
    on which the game is on: for at least one row and one column the grid
    of [__init__] is rectangular, obeys gravity, has no line of four, is
    not a draw nor terminal, scores 0, and every column is a legal move. *)
Theorem fresh_grid_is_playable R C :
  1 <= R -> 1 <= C ->
  rect R C (empty_board R C) /\
  gravity (empty_board R C) = true /\
  is_a_winner (empty_board R C) = None /\
  board_full (empty_board R C) = false /\
  is_terminal (empty_board R C) = false /\
  evaluate (empty_board R C) = 0%Z /\
  (forall col, col < C -> col ∈ get_possible_moves (empty_board R C)).
Proof.
  intros HR HC. pose proof (rect_empty_board R C HR) as Hs.
  assert (Hnotfull : board_full (empty_board R C) = false).
  { destruct (board_full (empty_board R C)) eqn:Hf; [|done]. exfalso.
    apply (proj1 (board_full_cells R C _ Hs) Hf 0 0); [lia|lia|].
    apply cell_at_empty_board. }
  split; [done|]. split; [apply gravity_empty_board|].
  split; [by apply is_a_winner_empty_board|]. split; [done|]. split; [|split].
  - unfold is_terminal.
    destruct (is_winner _ O || is_winner _ X) eqn:Hw; [|done]. exfalso.
    apply (some_winner_iff R C _ Hs) in Hw. by rewrite is_a_winner_empty_board in Hw.
  - pose proof (evaluate_swap (empty_board R C)) as Hswap.
    rewrite swap_empty_board in Hswap. lia.
  - intros col Hcol. apply (get_possible_moves_legal R C _ col Hs).
    split; [done|apply cell_at_empty_board].
Qed.

Lemma fresh_grid_is_playable_witness :
  rect 6 7 (empty_board 6 7) /\
  gravity (empty_board 6 7) = true /\
  is_a_winner (empty_board 6 7) = None /\
  board_full (empty_board 6 7) = false /\
  is_terminal (empty_board 6 7) = false /\
  evaluate (empty_board 6 7) = 0%Z /\
  (forall col, col < 7 -> col ∈ get_possible_moves (empty_board 6 7)).
Proof.
  apply (fresh_grid_is_playable 6 7); lia.
Defined.

(** * The moving piece and the buttons *)

Lemma compute_position_column (p : Piece.t) mouse_x :
  (0 <= mouse_x)%Z ->
  (Piece.center_x (Piece.compute_position p mouse_x cell_size) / cell_size
   = mouse_x / cell_size)%Z.
Proof.
  intros Hx. unfold Piece.compute_position, cell_size. simpl.
  Z.div_mod_to_equations. lia.
Qed.

Lemma compute_position_in_window C (p : Piece.t) mouse_x :
  (0 <= mouse_x < Z.of_nat C * cell_size)%Z ->
  piece_in_window C (Piece.compute_position p mouse_x cell_size).
Proof.
  intros Hx. unfold piece_in_window, Piece.compute_position, cell_size in *.
  simpl. Z.div_mod_to_equations. lia.
Qed.

Lemma piece_column_in_grid C (p : Piece.t) :
  piece_in_window C p -> piece_column p < C.
Proof.
  unfold piece_in_window, piece_column, cell_size. intros Hp.
  assert (0 <= Piece.center_x p / 100 < Z.of_nat C)%Z
    by (Z.div_mod_to_equations; lia).
  lia.
Qed.

(** X14. The moving piece follows the pointer by whole columns: after
    [compute_position] for a pointer inside a window [C] columns wide, the
    column the click handlers read back from the piece is the column under
    the pointer, it is a column of the grid, and the piece is centred
    exactly over the discs of that column; whose turn it is and the colour
    do not change. *)
Theorem pointer_selects_column C (p : Piece.t) mouse_x :
  (0 <= mouse_x < Z.of_nat C * cell_size)%Z ->
  piece_column (Piece.compute_position p mouse_x cell_size)
  = Z.to_nat (mouse_x / cell_size) /\
  piece_column (Piece.compute_position p mouse_x cell_size) < C /\
  Piece.center_x (Piece.compute_position p mouse_x cell_size)
  = disc_center_x (mouse_x / cell_size) /\
  Piece.current_player (Piece.compute_position p mouse_x cell_size)
  = Piece.current_player p /\
  Piece.color (Piece.compute_position p mouse_x cell_size) = Piece.color p.
Proof.
  intros Hx. split; [|split; [|split; [|done]]].
  - unfold piece_column. rewrite compute_position_column by lia. done.
  - by apply piece_column_in_grid, compute_position_in_window.
  - unfold Piece.compute_position, disc_center_x, cell_size. simpl.
    Z.div_mod_to_equations. lia.
Qed.

Lemma pointer_selects_column_witness :
  piece_column (Piece.compute_position (Piece.mk true 1 (255, 0, 0)%Z 350 50 60)
                                       (612)%Z cell_size)
  = Z.to_nat (612 / cell_size) /\
  piece_column (Piece.compute_position (Piece.mk true 1 (255, 0, 0)%Z 350 50 60)
                                       (612)%Z cell_size) < 7 /\
  Piece.center_x (Piece.compute_position (Piece.mk true 1 (255, 0, 0)%Z 350 50 60)
                                         (612)%Z cell_size)
  = disc_center_x (612 / cell_size) /\
  Piece.current_player
    (Piece.compute_position (Piece.mk true 1 (255, 0, 0)%Z 350 50 60)
                            (612)%Z cell_size)
  = Piece.current_player (Piece.mk true 1 (255, 0, 0)%Z 350 50 60) /\
  Piece.color (Piece.compute_position (Piece.mk true 1 (255, 0, 0)%Z 350 50 60)
                                      (612)%Z cell_size)
  = Piece.color (Piece.mk true 1 (255, 0, 0)%Z 350 50 60).
Proof.
  apply (pointer_selects_column 7). unfold cell_size. lia.
Defined.

Lemma init_center_x C first_player (p : Piece.t) :
  Piece.init cell_size (Z.of_nat C) first_player = Some p ->
  Piece.center_x p =
  (if negb (Z.of_nat C mod 2 =? 0)%Z
   then (Z.of_nat C * cell_size) / 2
   else (Z.of_nat C * cell_size) / 2 - cell_size / 2)%Z.
Proof.
  unfold Piece.init. repeat case_bool_decide; intros [= <-]; reflexivity.
Qed.

Lemma init_in_window C first_player (p : Piece.t) :
  1 <= C -> Piece.init cell_size (Z.of_nat C) first_player = Some p ->
  piece_in_window C p /\
  (Piece.center_x p / cell_size = (Z.of_nat C - 1) / 2)%Z.
Proof.
  intros HC Hinit. unfold piece_in_window.
  rewrite (init_center_x C first_player p Hinit). unfold cell_size.
  destruct (Z.eqb_spec (Z.of_nat C mod 2) 0) as [Heven|Hodd]; simpl;
    Z.div_mod_to_equations; lia.
Qed.

(** X15. A new moving piece is over the middle column: for a grid of at
    least one column [MOVABLE_PIECE.__init__] puts the piece inside the
    window, over column [(C - 1) // 2], and gives the first turn to
    player 1 for "player1" and "human", to player 2 for "player2" and
    "computer"; for any other name it leaves the piece without a
    player. *)
Theorem initial_piece_over_middle C first_player :
  1 <= C ->
  match Piece.init cell_size (Z.of_nat C) first_player with
  | Some p =>
      piece_in_window C p /\
      piece_column p = (C - 1) / 2 /\
      (Piece.current_player p = 1%Z <->
       first_player = "player1" \/ first_player = "human") /\
      (Piece.current_player p = 2%Z <->
       first_player = "player2" \/ first_player = "computer")
  | None =>
      first_player <> "player1" /\ first_player <> "player2" /\
      first_player <> "human" /\ first_player <> "computer"
  end.
Proof.
  intros HC.
  destruct (Piece.init cell_size (Z.of_nat C) first_player) as [p|] eqn:Hinit.
  - destruct (init_in_window C first_player p HC Hinit) as [Hwin Hcol].
    split; [done|]. split.
    + unfold piece_column. rewrite Hcol.
      rewrite <- (Nat2Z.id ((C - 1) / 2)). f_equal.
      rewrite Nat2Z.inj_div, Nat2Z.inj_sub by lia. done.
    + unfold Piece.init in Hinit.
      repeat case_bool_decide; try discriminate; injection Hinit as <-; simpl;
        subst; split; split; intros Hx; try discriminate; try lia;
        try (destruct Hx; discriminate); try done; auto.
  - unfold Piece.init in Hinit. repeat case_bool_decide; try discriminate. done.
Qed.

Lemma initial_piece_over_middle_witness :
  match Piece.init cell_size (Z.of_nat 7) "computer" with
  | Some p =>
      piece_in_window 7 p /\
      piece_column p = (7 - 1) / 2 /\
      (Piece.current_player p = 1%Z <-> "computer" = "player1" \/ "computer" = "human") /\
      (Piece.current_player p = 2%Z <-> "computer" = "player2" \/ "computer" = "computer")
  | None =>
      "computer" <> "player1" /\ "computer" <> "player2" /\
      "computer" <> "human" /\ "computer" <> "computer"
  end.
Proof.
  apply (initial_piece_over_middle 7 "computer"). lia.
Defined.

(** X16. The buttons of a page are laid out in a column without
    overlapping: [compute_button_rect] returns one button per label, in
    the order of the labels, each 350 by 100 and centred in the 800 wide
    window, each starting 130 below the one before (so 30 apart); for up
    to six labels, which covers the menu and both winner pages, all of
    them lie inside the 800 high window. *)
Theorem buttons_stacked (button_texts : list string) :
  length (compute_button_rect button_texts) = length button_texts /\
  (forall i text, button_texts !! i = Some text ->
     exists r,
       compute_button_rect button_texts !! i = Some (r, text) /\
       rect_width r = 350%Z /\ rect_height r = 100%Z /\
       (rect_left r + rect_width r / 2 = 400)%Z /\
       (rect_top r = (800 - 130 * Z.of_nat (length button_texts)) / 2
                     + 130 * Z.of_nat i)%Z /\
       (length button_texts <= 6 ->
        (0 <= rect_top r /\ rect_top r + rect_height r <= 800)%Z)) /\
  (forall i r1 t1 r2 t2,
     compute_button_rect button_texts !! i = Some (r1, t1) ->
     compute_button_rect button_texts !! (S i) = Some (r2, t2) ->
     (rect_top r2 = rect_top r1 + rect_height r1 + 30)%Z).
Proof.
  unfold compute_button_rect. cbv zeta. split; [apply length_imap|]. split.
  - intros i text Hi. eexists. rewrite list_lookup_imap, Hi. simpl.
    split; [reflexivity|]. simpl. split; [done|]. split; [done|].
    split; [reflexivity|]. split; [Z.div_mod_to_equations; lia|].
    intros Hn. pose proof (lookup_lt_Some _ _ _ Hi) as Hlt.
    Z.div_mod_to_equations. lia.
  - intros i r1 t1 r2 t2. rewrite !list_lookup_imap.
    destruct (button_texts !! i) as [x1|]; [|done].
    destruct (button_texts !! S i) as [x2|]; [|done].
    simpl. intros [= <- <-] [= <- <-]. simpl. Z.div_mod_to_equations. lia.
Qed.

(** * Rounds of play against the computer *)

Lemma valid_is_legal R C (g : GAME_AI) col :
  rows_number g = R -> rect R C (state g) -> gravity (state g) = true ->
  col < C -> is_valid_move g col = true -> legal C (state g) col.
Proof.
  intros Hrows Hs Hg Hcol Hvalid. pose proof Hs as (HR & _).
  apply is_valid_move_iff in Hvalid as (r & Hr & He). rewrite Hrows in Hr.
  split; [done|].
  destruct (decide (cell_at (state g) 0 col = Empty)) as [|Hocc]; [done|].
  exfalso. apply (gravity_below R C (state g) col 0 r Hs Hg); [lia|lia|lia|done|done].
Qed.

Lemma change_player_center_x (p : Piece.t) :
  Piece.center_x (Piece.change_player p) = Piece.center_x p.
Proof. unfold Piece.change_player. by destruct (Piece.current_player p =? 2)%Z. Qed.







Lemma board_full_empty_board R C :
  1 <= R -> 1 <= C -> board_full (empty_board R C) = false.
Proof.
  intros HR HC. pose proof (rect_empty_board R C HR) as Hs.
  destruct (board_full (empty_board R C)) eqn:Hf; [|done]. exfalso.
  apply (proj1 (board_full_cells R C _ Hs) Hf 0 0); [lia|lia|].
  apply cell_at_empty_board.
Qed.






Lemma session_init_ok R C first_player game_mode :
  1 <= R -> 1 <= C -> first_player = "human" \/ first_player = "computer" ->
  exists s0, AI_session_init R C first_player game_mode = Some s0 /\
             session_ok R C s0.
Proof.
  intros HR HC Hfp. unfold AI_session_init.
  destruct (Piece.init cell_size (Z.of_nat C) first_player) as [p|] eqn:Hinit.
  - destruct (init_in_window C first_player p HC Hinit) as [Hwin _].
    eexists. split; [reflexivity|]. unfold session_ok.
    cbn [game movable_piece winning_pieces GAME_AI_init state rows_number
         columns_number last_move].
    split; [done|]. split; [done|]. split; [done|].
    split; [by apply rect_empty_board|]. split; [apply gravity_empty_board|].
    split; [done|]. split; [done|]. split; [by apply board_full_empty_board|].
    split; [by apply is_a_winner_empty_board|done].
  - exfalso. unfold Piece.init in Hinit.
    destruct Hfp as [-> | ->]; discriminate.
Qed.




(** ** Clicks that arrive together *)

Lemma click_on_free_column (s : AI_session) :
  is_valid_move (game s) (piece_column (movable_piece s)) = true ->
  handle_event s (MOUSEBUTTONDOWN 1) =
  Continue (mkAI_session
              (set_current_player
                 (execute_move (game s) (piece_column (movable_piece s)))
                 "computer")
              (Piece.change_player (movable_piece s))
              (winning_pieces s)).
Proof. intros Hvalid. simpl. by rewrite Hvalid. Qed.

Lemma handle_events_step (s s1 : AI_session) e rest :
  handle_event s e = Continue s1 ->
  handle_events s (e :: rest) = handle_events s1 rest.
Proof. intros Hstep. cbn [handle_events]. by rewrite Hstep. Qed.

(** X19. The human branch plays every click of a batch of events: the
    test that it is the human's turn is made once, before the loop over
    the events, so two left clicks that [pygame.event.get()] returns
    together, over a column with two free cells, drop two ['X'] before
    the computer answers. *)
Theorem queued_clicks_both_play R C (s : AI_session) :
  session_shape R C s -> 2 <= R ->
  cell_at (state (game s)) 1 (piece_column (movable_piece s)) = Empty ->
  exists s',
    handle_events s [MOUSEBUTTONDOWN 1; MOUSEBUTTONDOWN 1] = Continue s' /\
    count_board (state (game s')) X = count_board (state (game s)) X + 2 /\
    count_board (state (game s')) O = count_board (state (game s)) O /\
    current_player (game s') = "computer".
Proof.
  intros (Hrows & Hcols & Hs & Hg & Hp & Hflag & Hwp) HR Hfree.
  set (col := piece_column (movable_piece s)) in *.
  assert (Hcol : col < C) by (by apply piece_column_in_grid).
  assert (Hvalid : is_valid_move (game s) col = true).
  { apply is_valid_move_iff. exists 1. split; [lia|done]. }
  pose proof (valid_is_legal R C (game s) col Hrows Hs Hg Hcol Hvalid) as Hlegal.
  destruct (make_move_legal R C (state (game s)) col X Hs Hlegal)
    as (child & r0 & Hm & Hchild & Hr0 & He0 & Hbelow & Hcells).
  destruct (drop_position R C (game s) col X Hrows Hs Hcol Hvalid)
    as (r & child' & _ & _ & _ & Hpos & Hm' & Hset & _).
  rewrite Hm in Hm'. injection Hm' as <-.
  assert (Hr0pos : r0 <> 0).
  { intros ->. apply (Hbelow 1); [lia|done]. }
  assert (Htop : cell_at child 0 col = Empty).
  { rewrite Hcells. rewrite decide_False by (intros [? _]; lia). apply Hlegal. }
  set (s1 := mkAI_session
               (set_current_player (execute_move (game s) col) "computer")
               (Piece.change_player (movable_piece s)) (winning_pieces s)).
  assert (Hstate1 : state (game s1) = child).
  { unfold s1. cbn [game set_current_player execute_move set_state state].
    by rewrite Hpos, Hset. }
  assert (Hcol1 : piece_column (movable_piece s1) = col).
  { unfold s1, piece_column. cbn [movable_piece].
    by rewrite change_player_center_x. }
  assert (Hrows1 : rows_number (game s1) = R) by done.
  assert (Hs1 : rect R C (state (game s1))) by (by rewrite Hstate1).
  assert (Hvalid1 : is_valid_move (game s1) (piece_column (movable_piece s1)) = true).
  { rewrite Hcol1. apply is_valid_move_iff. exists 0. rewrite Hrows1, Hstate1.
    split; [lia|done]. }
  assert (Hlegal1 : legal C child col) by done.
  destruct (drop_position R C (game s1) col X Hrows1 Hs1 Hcol)
    as (r1 & child2 & _ & _ & _ & Hpos1 & Hm1 & Hset1 & _).
  { by rewrite <- Hcol1. }
  rewrite Hstate1 in Hm1, Hset1.
  destruct (make_move_counts R C (state (game s)) child col X Hs Hlegal)
    as (HX1 & _ & HO1); [done|done|].
  destruct (make_move_counts R C child child2 col X Hchild Hlegal1)
    as (HX2 & _ & HO2); [done|done|].
  eexists. split.
  { rewrite (handle_events_step s s1 (MOUSEBUTTONDOWN 1))
      by apply (click_on_free_column s Hvalid).
    rewrite (handle_events_step s1 _ (MOUSEBUTTONDOWN 1) [])
      by apply (click_on_free_column s1 Hvalid1).
    reflexivity. }
  cbn [game set_current_player execute_move set_state state current_player].
  rewrite Hcol1, Hpos1, Hstate1, Hset1.
  split; [lia|]. split; [|done].
  rewrite (HO2 O), (HO1 O) by done. done.
Qed.

Lemma queued_clicks_both_play_witness :
  exists s',
    handle_events easy_session [MOUSEBUTTONDOWN 1; MOUSEBUTTONDOWN 1] = Continue s' /\
    count_board (state (game s')) X = count_board (state (game easy_session)) X + 2 /\
    count_board (state (game s')) O = count_board (state (game easy_session)) O /\
    current_player (game s') = "computer".
Proof.
  apply (queued_clicks_both_play 6 7 easy_session).
  - unfold session_shape. split; [reflexivity|]. split; [reflexivity|].
    split; [rect_by_computation|]. split; [reflexivity|].
    split; [unfold piece_in_window, cell_size; simpl; lia|].
    split; reflexivity.
  - lia.
  - reflexivity.
Defined.

(** * Two players at one screen *)

Lemma count_board_empty_board R C x :
  x <> Empty -> count_board (empty_board R C) x = 0.
Proof.
  intros Hx. unfold count_board, empty_board.
  induction R as [|R IH]; simpl; [done|].
  rewrite count_app, IH.
  assert (Hrow : count (replicate C Empty) x = 0).
  { clear IH. induction C as [|C IHC]; simpl; [done|].
    rewrite count_cons, IHC. by rewrite decide_False. }
  lia.
Qed.






Lemma init_1v1 R C first_player :
  1 <= R -> 1 <= C -> first_player = "player1" \/ first_player = "player2" ->
  exists g0, OneVsOne.init R C first_player = Some g0 /\ game_1v1_ok R C g0.
Proof.
  intros HR HC Hfp. unfold OneVsOne.init.
  destruct (Piece.init cell_size (Z.of_nat C) first_player) as [p|] eqn:Hinit.
  - destruct (init_in_window C first_player p HC Hinit) as [Hwin _].
    eexists. split; [reflexivity|]. unfold game_1v1_ok, marks_alternate.
    cbn [OneVsOne.rows_number OneVsOne.columns_number OneVsOne.first_player
         OneVsOne.state OneVsOne.movable_piece].
    split; [done|]. split; [done|]. split; [by apply rect_empty_board|].
    split; [apply gravity_empty_board|]. split; [done|]. split; [done|].
    rewrite !count_board_empty_board by done.
    unfold Piece.init in Hinit.
    destruct Hfp as [-> | ->]; injection Hinit as <-; simpl; by left.
  - exfalso. unfold Piece.init in Hinit.
    destruct Hfp as [-> | ->]; discriminate.
Qed.



(** * Start-up, continued *)

(** X21. [validate] reports the first check that fails, in the order
    opponent type, rows, columns, first mover: a wrong opponent type is
    reported whatever the sizes are (they are not even read as integers);
    with a right opponent type a row count that is no integer, or one
    outside 4 to 8, is reported whatever the column count is; and so
    on. *)
Theorem validate_reports_first_failure (int : string -> Z + string)
    (opponent_type row_size column_size first_player : string) :
  (opponent_type <> "human" -> opponent_type <> "computer" ->
   validate int opponent_type row_size column_size first_player =
   Printed "ERROR: Opponent type must be 'human' or 'computer'!") /\
  (opponent_type = "human" \/ opponent_type = "computer" ->
   (forall message, int row_size = inr message ->
      validate int opponent_type row_size column_size first_player =
      Printed message) /\
   (forall rows, int row_size = inl rows -> (rows < 4 \/ 8 < rows)%Z ->
      validate int opponent_type row_size column_size first_player =
      Printed "ERROR: The number of rows must be between 4 and 8!") /\
   (forall rows, int row_size = inl rows -> (4 <= rows <= 8)%Z ->
      (forall message, int column_size = inr message ->
         validate int opponent_type row_size column_size first_player =
         Printed message) /\
      (forall cols, int column_size = inl cols -> (cols < 4 \/ 16 < cols)%Z ->
         validate int opponent_type row_size column_size first_player =
         Printed "ERROR: The number of columns must be between 4 and 16!"))).
Proof.
  unfold validate, validate_checks. split.
  - intros Hh Hc. by rewrite (bool_decide_false _ Hh), (bool_decide_false _ Hc).
  - intros Hopp.
    assert (Hfirst : negb (bool_decide (opponent_type = "human"))
                     && negb (bool_decide (opponent_type = "computer")) = false).
    { destruct Hopp as [-> | ->]; reflexivity. }
    rewrite Hfirst. split; [|split].
    + intros message ->. done.
    + intros rows -> Hrows.
      destruct (Z.ltb_spec rows 4); [done|].
      destruct (Z.gtb_spec rows 8); [done|]. lia.
    + intros rows -> Hrows.
      destruct (Z.ltb_spec rows 4); [lia|].
      destruct (Z.gtb_spec rows 8); [lia|]. simpl. split.
      * intros message ->. done.
      * intros cols -> Hcols.
        destruct (Z.ltb_spec cols 4); [done|].
        destruct (Z.gtb_spec cols 16); [done|]. lia.
Qed.

(** X22. Every match the program can start begins in order: for a
    configuration [validate] accepts, the menu has buttons, and for each
    of them but "Exit" [FourInROW_game] builds the game of the validated
    opponent type, whose moving piece has a player, on the empty grid of
    the validated size, with nothing to report and the game on (no line
    of four, a free cell); against the computer the mode is the button's
    label and the first turn is the configured first mover's. *)
Theorem valid_configuration_builds_match (int : string -> Z + string)
    (opponent_type row_size column_size first_player : string) :
  valid_configuration int opponent_type row_size column_size first_player ->
  exists rows cols buttons,
    validate int opponent_type row_size column_size first_player =
    FourInROW_game opponent_type rows cols first_player /\
    menu_buttons opponent_type = Some buttons /\
    (forall label, label ∈ buttons -> label <> "Exit" ->
       match build_match label (Z.to_nat rows) (Z.to_nat cols) first_player with
       | Game1v1 (Some g) =>
           opponent_type = "human" /\
           OneVsOne.state g = empty_board (Z.to_nat rows) (Z.to_nat cols) /\
           OneVsOne.winning_pieces g = None /\
           OneVsOne.first_player g = first_player /\
           is_a_winner (OneVsOne.state g) = None /\
           board_full (OneVsOne.state g) = false /\
           game_1v1_ok (Z.to_nat rows) (Z.to_nat cols) g
       | GameAI (Some s) =>
           opponent_type = "computer" /\
           state (game s) = empty_board (Z.to_nat rows) (Z.to_nat cols) /\
           game_mode (game s) = label /\
           current_player (game s) = first_player /\
           session_ok (Z.to_nat rows) (Z.to_nat cols) s
       | _ => False
       end).
Proof.
  intros Hvalid.
  pose proof Hvalid as (Hopp & (rows & Hr & Hrows) & (cols & Hc & Hcols)
                        & Hhuman & Hcomputer).
  assert (HR : 1 <= Z.to_nat rows) by lia.
  assert (HC : 1 <= Z.to_nat cols) by lia.
  exists rows, cols.
  assert (Hstart : validate int opponent_type row_size column_size first_player =
                   FourInROW_game opponent_type rows cols first_player).
  { unfold validate, validate_checks. rewrite Hr, Hc.
    destruct (Z.ltb_spec rows 4) as [?|_]; [lia|].
    destruct (Z.gtb_spec rows 8) as [?|_]; [lia|].
    destruct (Z.ltb_spec cols 4) as [?|_]; [lia|].
    destruct (Z.gtb_spec cols 16) as [?|_]; [lia|]. simpl.
    destruct Hopp as [->| ->]; simpl.
    + destruct (Hhuman eq_refl) as [->| ->]; reflexivity.
    + destruct (Hcomputer eq_refl) as [->| ->]; reflexivity. }
  destruct Hopp as [->| ->].
  - exists ["Play"; "Exit"]. split; [done|]. split; [done|].
    intros mode Hmode Hexit.
    repeat (apply elem_of_cons in Hmode as [->|Hmode]); try done;
      [|by apply not_elem_of_nil in Hmode].
    unfold build_match. rewrite bool_decide_true by done.
    destruct (init_1v1 (Z.to_nat rows) (Z.to_nat cols) first_player HR HC
                (Hhuman eq_refl)) as (g0 & Hinit & Hok).
    rewrite Hinit. unfold OneVsOne.init in Hinit.
    destruct (Piece.init cell_size (Z.of_nat (Z.to_nat cols)) first_player);
      [|done].
    injection Hinit as <-.
    cbn [OneVsOne.state OneVsOne.winning_pieces OneVsOne.first_player].
    split; [done|]. split; [done|]. split; [done|]. split; [done|].
    split; [by apply is_a_winner_empty_board|].
    split; [by apply board_full_empty_board|done].
  - exists ["Easy"; "Medium"; "Hard"; "Exit"]. split; [done|]. split; [done|].
    intros mode Hmode Hexit.
    assert (Hfp : first_player = "human" \/ first_player = "computer").
    { destruct (Hcomputer eq_refl); auto. }
    repeat (apply elem_of_cons in Hmode as [->|Hmode]); try done;
      try (by apply not_elem_of_nil in Hmode);
      unfold build_match; simpl;
      match goal with
      | |- context [AI_session_init ?r ?c ?f ?m] =>
          destruct (session_init_ok r c f m HR HC Hfp) as (s0 & Hinit & Hok);
          rewrite Hinit;
          unfold AI_session_init in Hinit;
          destruct (Piece.init cell_size (Z.of_nat c) f); [|done];
          injection Hinit as <-;
          by do 4 (split; [done|])
      end.
Qed.

Lemma valid_configuration_builds_match_witness :
  exists rows cols buttons,
    validate sample_int "computer" "6" "7" "human" =
    FourInROW_game "computer" rows cols "human" /\
    menu_buttons "computer" = Some buttons /\
    (forall label, label ∈ buttons -> label <> "Exit" ->
       match build_match label (Z.to_nat rows) (Z.to_nat cols) "human" with
       | Game1v1 (Some g) =>
           "computer" = "human" /\
           OneVsOne.state g = empty_board (Z.to_nat rows) (Z.to_nat cols) /\
           OneVsOne.winning_pieces g = None /\
           OneVsOne.first_player g = "human" /\
           is_a_winner (OneVsOne.state g) = None /\
           board_full (OneVsOne.state g) = false /\
           game_1v1_ok (Z.to_nat rows) (Z.to_nat cols) g
       | GameAI (Some s) =>
           "computer" = "computer" /\
           state (game s) = empty_board (Z.to_nat rows) (Z.to_nat cols) /\
           game_mode (game s) = label /\
           current_player (game s) = "human" /\
           session_ok (Z.to_nat rows) (Z.to_nat cols) s
       | _ => False
       end).
Proof.
  apply (valid_configuration_builds_match sample_int "computer" "6" "7" "human").
  unfold valid_configuration. split; [by right|].
  split; [exists 6%Z; split; [reflexivity|lia]|].
  split; [exists 7%Z; split; [reflexivity|lia]|].
  split; [discriminate|]. intros _. by right.
Defined.
